(** * ableton_git_setup: the semantic textconv for Ableton [.als] projects

    A shallow embedding of [als-textconv-semantic.py], the script that
    [ableton_git_setup.py] writes into [.git-filters/], followed by the
    properties of its decoder, extractors, formatters and renderer.

    Conventions of the embedding.
    - A Python [str] is a [string]; the characters are the ASCII ones.
      Case mapping, white space and digits are the ASCII notions (Python
      also knows the Unicode ones).
    - A Python [int] is a [Z].
    - A Python [float] is an IEEE-754 binary64 number, [spec_float] with
      precision 53 and maximal exponent 1024; every operation rounds to
      nearest, ties to even, as the hardware does.
    - A raised exception is the [Raise] case of [result]; [try]/[except]
      is a [match] on it.
    - A [dict] with a fixed set of optional keys is a record of [option]
      fields; a [dict] that is iterated is an association list in
      insertion order; a [dict] that is only looked up is a [gmap]. *)

From Stdlib Require Import ZArith Ascii String List Bool Lia DecimalString Sorted.
From Stdlib Require Import Floats.SpecFloat.
From stdpp Require Import gmap strings.

Local Open Scope Z_scope.

(** ** Exceptions *)

(** The exceptions that the script can raise; only the message of a
    [ParseError], which no handler of the script catches, is kept. *)
Inductive exn :=
  | ValueError
  | OverflowError
  | IndexError
  | ParseError (msg : string).

Inductive result (A : Type) :=
  | Ok (a : A)
  | Raise (e : exn).
Arguments Ok {A} a.
Arguments Raise {A} e.

#[global] Instance result_ret : MRet result := fun A a => Ok a.
#[global] Instance result_bind : MBind result := fun A B f r =>
  match r with Ok a => f a | Raise e => Raise e end.
#[global] Instance result_fmap : FMap result := fun A B f r =>
  match r with Ok a => Ok (f a) | Raise e => Raise e end.

(** [try: r except: d] *)
Definition try_except {A} (r : result A) (d : A) : A :=
  match r with Ok a => a | Raise _ => d end.

(** [for x in l: ...] where the body may raise: the first exception stops
    the loop. *)
Fixpoint mapR {A B} (f : A -> result B) (l : list A) : result (list B) :=
  match l with
  | [] => Ok []
  | x :: l' =>
      match f x with
      | Raise e => Raise e
      | Ok y => match mapR f l' with
                | Raise e => Raise e
                | Ok ys => Ok (y :: ys)
                end
      end
  end.

(** ** Python strings *)

Module Str.

Definition code (c : ascii) : Z := Z.of_nat (nat_of_ascii c).

Definition is_upper (c : ascii) : bool := (65 <=? code c) && (code c <=? 90).
Definition is_digit (c : ascii) : bool := (48 <=? code c) && (code c <=? 57).
Definition digit_val (c : ascii) : Z := code c - 48.

(** White space of [int()] and [float()]. *)
Definition is_space (c : ascii) : bool :=
  ((9 <=? code c) && (code c <=? 13)) || (code c =? 32).

(** White space of [str.strip()]. *)
Definition is_strip_space (c : ascii) : bool :=
  is_space c || ((28 <=? code c) && (code c <=? 31)).

Definition lower_char (c : ascii) : ascii :=
  if is_upper c then ascii_of_nat (nat_of_ascii c + 32) else c.

(** [s.lower()] *)
Fixpoint lower (s : string) : string :=
  match s with
  | EmptyString => EmptyString
  | String c s' => String (lower_char c) (lower s')
  end.

(** [s.startswith(p)] *)
Fixpoint startswith (s p : string) : bool :=
  match p, s with
  | EmptyString, _ => true
  | String _ _, EmptyString => false
  | String a p', String b s' => if Ascii.eqb a b then startswith s' p' else false
  end.

(** [p in s] *)
Fixpoint contains (p s : string) : bool :=
  startswith s p ||
  match s with
  | EmptyString => false
  | String _ s' => contains p s'
  end.

Fixpoint rev_onto (s acc : string) : string :=
  match s with
  | EmptyString => acc
  | String c s' => rev_onto s' (String c acc)
  end.

Definition rev (s : string) : string := rev_onto s EmptyString.

(** [s.endswith(p)] *)
Definition endswith (s p : string) : bool := startswith (rev s) (rev p).

Fixpoint lstrip_by (sp : ascii -> bool) (s : string) : string :=
  match s with
  | EmptyString => EmptyString
  | String c s' => if sp c then lstrip_by sp s' else s
  end.

Definition strip_by (sp : ascii -> bool) (s : string) : string :=
  rev (lstrip_by sp (rev (lstrip_by sp s))).

(** [s.strip()] *)
Definition strip (s : string) : string := strip_by is_strip_space s.

(** [s.split(sep)] for a one-character separator. *)
Fixpoint split_onto (sep : ascii) (s cur : string) : list string :=
  match s with
  | EmptyString => [rev cur]
  | String c s' =>
      if Ascii.eqb c sep then rev cur :: split_onto sep s' EmptyString
      else split_onto sep s' (String c cur)
  end.

Definition split (sep : ascii) (s : string) : list string :=
  split_onto sep s EmptyString.

(** [sep.join(l)] *)
Fixpoint join (sep : string) (l : list string) : string :=
  match l with
  | [] => EmptyString
  | [x] => x
  | x :: l' => x +:+ sep +:+ join sep l'
  end.

(** [c * n] for a one-character string [c]. *)
Fixpoint repeat (c : ascii) (n : nat) : string :=
  match n with
  | O => EmptyString
  | S n' => String c (repeat c n')
  end.

(** [s.replace(old, new)] for a non-empty [old]: occurrences are found
    left to right and do not overlap. [skip] counts the characters of a
    match that are still to be dropped. *)
Fixpoint replace_from (old new : string) (skip : nat) (s : string) : string :=
  match s with
  | EmptyString => EmptyString
  | String c s' =>
      match skip with
      | S k => replace_from old new k s'
      | O =>
          if startswith s old
          then new +:+ replace_from old new (Nat.pred (String.length old)) s'
          else String c (replace_from old new O s')
      end
  end.

Definition replace (s old new : string) : string := replace_from old new O s.

(** Truth value of a string: [if s:]. *)
Definition truthy (s : string) : bool :=
  match s with EmptyString => false | _ => true end.

(** [str(n)] for an [int]. *)
Definition of_Z (n : Z) : string := NilZero.string_of_int (Z.to_int n).

(** [f"{n:+d}"] *)
Definition of_Z_signed (n : Z) : string :=
  if n <? 0 then of_Z n else "+" +:+ of_Z n.

(** Reads the longest prefix [d (_? d)*] of digits, in which single
    underscores may separate digits (PEP 515), and returns the digits
    and what follows them. *)
Fixpoint read_digits (s : string) : list Z * string :=
  match s with
  | String c s' =>
      if is_digit c then
        match s' with
        | String "_" (String d _ as s'') =>
            if is_digit d
            then let '(ds, r) := read_digits s'' in (digit_val c :: ds, r)
            else ([digit_val c], s')
        | _ => let '(ds, r) := read_digits s' in (digit_val c :: ds, r)
        end
      else ([], s)
  | EmptyString => ([], s)
  end.

Definition digits_value (ds : list Z) : Z :=
  fold_left (fun acc d => 10 * acc + d) ds 0.

(** An optional sign; [true] is minus. *)
Definition read_sign (s : string) : bool * string :=
  match s with
  | String "-" s' => (true, s')
  | String "+" s' => (false, s')
  | _ => (false, s)
  end.

(** [int(s)] for a [str]: surrounding white space, an optional sign,
    decimal digits. Anything else is a [ValueError]. *)
Definition to_int (s : string) : result Z :=
  let '(neg, body) := read_sign (strip_by is_space s) in
  match read_digits body with
  | ((_ :: _) as ds, EmptyString) =>
      Ok (if neg then - digits_value ds else digits_value ds)
  | _ => Raise ValueError
  end.

End Str.

(** ** Python floats: IEEE-754 binary64 *)

Module F64.

Definition prec : Z := 53.
Definition emax : Z := 1024.

Definition add : spec_float -> spec_float -> spec_float := SFadd prec emax.
Definition sub : spec_float -> spec_float -> spec_float := SFsub prec emax.
Definition mul : spec_float -> spec_float -> spec_float := SFmul prec emax.
Definition div : spec_float -> spec_float -> spec_float := SFdiv prec emax.
Definition abs : spec_float -> spec_float := SFabs.
Definition eqb : spec_float -> spec_float -> bool := SFeqb.
Definition ltb : spec_float -> spec_float -> bool := SFltb.
Definition leb : spec_float -> spec_float -> bool := SFleb.

(** The float of an [int] (exact for the small constants of the script). *)
Definition of_Z (n : Z) : spec_float := binary_normalize prec emax n 0 false.

(** The float nearest to [(-1)^neg * M * 10^E], as [float()] and the
    compiler of float literals compute it. *)
Definition of_decimal (neg : bool) (M E : Z) : spec_float :=
  match M with
  | Zpos m =>
      if 0 <=? E then binary_normalize prec emax ((if neg then Zneg m else Zpos m) * 10 ^ E) 0 neg
      else
        let '(q, e, l) := SFdiv_core_binary prec emax (Zpos m) 0 (10 ^ (- E)) 0 in
        binary_round_aux prec emax neg q e l
  | _ => S754_zero neg
  end.

Definition is_exp_char (c : ascii) : bool :=
  Ascii.eqb c "e" || Ascii.eqb c "E".

(** [float(s)] for a [str]. *)
Definition of_string (s : string) : result spec_float :=
  let '(neg, body) := Str.read_sign (Str.strip_by Str.is_space s) in
  let low := Str.lower body in
  if String.eqb low "inf" || String.eqb low "infinity" then Ok (S754_infinity neg)
  else if String.eqb low "nan" then Ok S754_nan
  else
    let '(ip, r1) := Str.read_digits body in
    let '(fp, r2) :=
      match r1 with
      | String "." r => Str.read_digits r
      | _ => ([], r1)
      end in
    let m := Str.digits_value (ip ++ fp) in
    let nfrac := Z.of_nat (length fp) in
    match ip ++ fp, r2 with
    | [], _ => Raise ValueError
    | _, EmptyString => Ok (of_decimal neg m (- nfrac))
    | _, String c r3 =>
        if is_exp_char c then
          let '(eneg, r4) := Str.read_sign r3 in
          match Str.read_digits r4 with
          | ((_ :: _) as es, EmptyString) =>
              let ex := Str.digits_value es in
              Ok (of_decimal neg m ((if eneg then - ex else ex) - nfrac))
          | _ => Raise ValueError
          end
        else Raise ValueError
    end.

(** A float literal of the source text. *)
Definition lit (s : string) : spec_float :=
  try_except (of_string s) S754_nan.

Definition is_finite (x : spec_float) : bool :=
  match x with
  | S754_zero _ | S754_finite _ _ _ => true
  | _ => false
  end.

Definition sign_bit (x : spec_float) : bool :=
  match x with
  | S754_zero s | S754_infinity s | S754_finite s _ _ => s
  | S754_nan => false
  end.

(** Truth value of a float, in C and in Python: anything but a zero. *)
Definition nonzero (x : spec_float) : bool :=
  match x with S754_zero _ => false | _ => true end.

(** [int(x)]: truncation toward zero. *)
Definition to_int (x : spec_float) : result Z :=
  match x with
  | S754_zero _ => Ok 0
  | S754_finite s m e =>
      let a := Z.shiftl (Zpos m) e in Ok (if s then - a else a)
  | S754_infinity _ => Raise OverflowError
  | S754_nan => Raise ValueError
  end.

(** [x == n] for a float [x] and an int [n]: Python compares the exact
    values. *)
Definition eqb_Z (x : spec_float) (n : Z) : bool :=
  match x with
  | S754_zero _ => n =? 0
  | S754_finite s m e =>
      let v := if s then Zneg m else Zpos m in
      if 0 <=? e then n =? v * 2 ^ e else v =? n * 2 ^ (- e)
  | _ => false
  end.

(** C's [floor]. *)
Definition floor (x : spec_float) : spec_float :=
  match x with
  | S754_finite s m e =>
      if 0 <=? e then x
      else
        let q := Z.shiftl (Zpos m) e in
        let exact := Z.shiftl q (- e) =? Zpos m in
        binary_normalize prec emax
          (if s then (if exact then - q else - q - 1) else q) 0 s
  | _ => x
  end.

(** C's [fmod]: the exact remainder of the truncated division, with the
    sign of [x]. *)
Definition fmod (x y : spec_float) : spec_float :=
  match x, y with
  | S754_nan, _ | _, S754_nan => S754_nan
  | S754_infinity _, _ => S754_nan
  | _, S754_zero _ => S754_nan
  | _, S754_infinity _ => x
  | S754_zero _, _ => x
  | S754_finite sx mx ex, S754_finite _ my ey =>
      let e := Z.min ex ey in
      let r := Z.rem (Z.shiftl (Zpos mx) (ex - e)) (Z.shiftl (Zpos my) (ey - e)) in
      binary_normalize prec emax (if sx then - r else r) e sx
  end.

Definition zero : spec_float := S754_zero false.
Definition one : spec_float := of_Z 1.
Definition half : spec_float := of_decimal false 5 (-1).

(** [v % w] on floats ([float_rem] of CPython), for [w] other than zero. *)
Definition pymod (v w : spec_float) : spec_float :=
  let m := fmod v w in
  if nonzero m then
    if xorb (ltb w zero) (ltb m zero) then add m w else m
  else S754_zero (sign_bit w).

(** [v // w] on floats ([_float_div_mod] of CPython), for [w] other than
    zero. *)
Definition floordiv (v w : spec_float) : spec_float :=
  let m := fmod v w in
  let d := div (sub v m) w in
  let d := if nonzero m && xorb (ltb w zero) (ltb m zero) then sub d one else d in
  if nonzero d then
    let f := floor d in
    if ltb half (sub d f) then add f one else f
  else S754_zero (sign_bit (div v w)).

(** The decimal digits of [m * 2^e * 10^nd], rounded to an integer,
    ties to even. *)
Definition round_scaled (m : positive) (e : Z) (nd : nat) : Z :=
  let num := Zpos m * 10 ^ Z.of_nat nd in
  if 0 <=? e then num * 2 ^ e
  else
    let den := 2 ^ (- e) in
    let q := num / den in
    let r := num mod den in
    if (den <? 2 * r) || ((2 * r =? den) && Z.odd q) then q + 1 else q.

(** Writes the non-negative integer [n] with a point before its last
    [nd] digits. *)
Definition fixed_digits (n : Z) (nd : nat) : string :=
  let s := Str.of_Z n in
  let s := Str.repeat "0" (S nd - String.length s) +:+ s in
  match nd with
  | O => s
  | _ =>
      let k := (String.length s - nd)%nat in
      String.substring 0 k s +:+ "." +:+ String.substring k nd s
  end.

Definition sign_string (plus neg : bool) : string :=
  if neg then "-" else if plus then "+" else "".

(** [f"{x:.{nd}f}"], and [f"{x:+.{nd}f}"] when [plus] is set. *)
Definition format_f (plus : bool) (nd : nat) (x : spec_float) : string :=
  match x with
  | S754_nan => sign_string plus false +:+ "nan"
  | S754_infinity s => sign_string plus s +:+ "inf"
  | S754_zero s => sign_string plus s +:+ fixed_digits 0 nd
  | S754_finite s m e => sign_string plus s +:+ fixed_digits (round_scaled m e nd) nd
  end.

End F64.

(** ** ElementTree *)

(** An element of [xml.etree.ElementTree]: its tag, its attributes and its
    child elements in document order (text is never read by the script). *)
#[warnings="-register-all"]
Inductive Element :=
  mkElement (tag : string) (attrib : list (string * string)) (children : list Element).

Module ET.

Definition tag (e : Element) : string :=
  match e with mkElement t _ _ => t end.
Definition attrib (e : Element) : list (string * string) :=
  match e with mkElement _ a _ => a end.
(** [list(e)], the children that [for child in e] visits. *)
Definition children (e : Element) : list Element :=
  match e with mkElement _ _ cs => cs end.

Fixpoint assoc (key : string) (a : list (string * string)) : option string :=
  match a with
  | [] => None
  | (k, v) :: a' => if String.eqb k key then Some v else assoc key a'
  end.

(** [e.get(key)], [None] when the attribute is absent. *)
Definition get_opt (e : Element) (key : string) : option string :=
  assoc key (attrib e).

(** [e.get(key, dflt)] *)
Definition get (e : Element) (key dflt : string) : string :=
  default dflt (get_opt e key).

(** [e.iter()]: the element, then its descendants, in document order. *)
Fixpoint iter (e : Element) : list Element :=
  match e with
  | mkElement _ _ cs => e :: flat_map iter cs
  end.

(** What [e.iter()] yields after [e] itself. *)
Definition descendants (e : Element) : list Element :=
  flat_map iter (children e).

Definition has_tag (t : string) (e : Element) : bool := String.eqb (tag e) t.

(** The steps of the paths that the script uses: [.], [name] and
    [//name]. *)
Inductive step :=
  | Self
  | Child (t : string)
  | Descendant (t : string).

(** One selector of [ElementPath]: it maps the current result list to
    the next one, without removing duplicates. *)
Definition select (st : step) (result : list Element) : list Element :=
  match st with
  | Self => result
  | Child t => flat_map (fun e => List.filter (has_tag t) (children e)) result
  | Descendant t => flat_map (fun e => List.filter (has_tag t) (descendants e)) result
  end.

(** The selectors of a path whose segments between [/] are given: an
    empty segment is the second slash of [//] and makes the next name a
    descendant step. The paths of the script are made of names, [.] and
    [//] only. *)
Fixpoint compile (segs : list string) : option (list step) :=
  match segs with
  | [] => Some []
  | EmptyString :: rest =>
      match rest with
      | String c n :: rest' =>
          if String.eqb (String c n) "." then None
          else steps ← compile rest'; Some (Descendant (String c n) :: steps)
      | _ => None
      end
  | seg :: rest =>
      steps ← compile rest;
      Some ((if String.eqb seg "." then Self else Child seg) :: steps)
  end.

(** [e.findall(path)] *)
Definition findall (e : Element) (path : string) : list Element :=
  match
    (if Str.startswith path "/" then None else compile (Str.split "/" path))
  with
  | Some steps => fold_left (fun r st => select st r) steps [e]
  | None => []
  end.

(** [e.find(path)]: the first match, or [None]. *)
Definition find (e : Element) (path : string) : option Element :=
  head (findall e path).

End ET.

(** ** The script: tables *)

Definition dquote : string := String (ascii_of_nat 34) EmptyString.
Definition newline : string := String (ascii_of_nat 10) EmptyString.

Definition COLORS : gmap string string :=
  list_to_map
    [("0", "Gray"); ("1", "Rose"); ("2", "Red"); ("3", "Orange"); ("4", "Gold");
     ("5", "Yellow"); ("6", "Lime"); ("7", "Green"); ("8", "Teal"); ("9", "Cyan");
     ("10", "Sky"); ("11", "Blue"); ("12", "Indigo"); ("13", "Purple"); ("14", "Violet");
     ("15", "Pink"); ("16", "Hot Pink"); ("17", "Flesh"); ("18", "Tan"); ("19", "Peach");
     ("20", "Khaki"); ("21", "Light Green"); ("22", "Sea Foam"); ("23", "Light Blue");
     ("24", "Lavender"); ("25", "Light Purple"); ("26", "White"); ("69", "Default")].

Definition WARP_MODES : gmap Z string :=
  list_to_map
    [(0, "Beats"); (1, "Tones"); (2, "Texture"); (3, "Re-Pitch"); (4, "Complex");
     (6, "Complex Pro")].

Definition NOTE_NAMES : list string :=
  ["C"; "C#"; "D"; "D#"; "E"; "F"; "F#"; "G"; "G#"; "A"; "A#"; "B"].

Definition NOTE_NAMES_FLAT : list string :=
  ["C"; "Db"; "D"; "Eb"; "E"; "F"; "Gb"; "G"; "Ab"; "A"; "Bb"; "B"].

Definition LAUNCH_MODES : gmap Z string :=
  list_to_map [(0, "trigger"); (1, "gate"); (2, "toggle"); (3, "repeat")].

Definition LAUNCH_QUANT : gmap Z string :=
  list_to_map
    [(0, "none"); (1, "8 bars"); (2, "4 bars"); (3, "2 bars"); (4, "1 bar");
     (5, "1/2"); (6, "1/2T"); (7, "1/4"); (8, "1/4T"); (9, "1/8"); (10, "1/8T");
     (11, "1/16"); (12, "1/16T"); (13, "1/32")].

Definition FOLLOW_ACTIONS : gmap Z string :=
  list_to_map
    [(0, "none"); (1, "stop"); (2, "again"); (3, "prev"); (4, "next"); (5, "first");
     (6, "last"); (7, "any"); (8, "other")].

(** [None] is the value of key 0. *)
Definition CROSSFADE_STATES : gmap Z (option string) :=
  list_to_map [(0, None); (1, Some "A"); (2, Some "B")].

Definition SKIP_PARAMS : gset string :=
  list_to_set
    ["LomId"; "LomIdView"; "OverwriteProtectionNumber"; "LastSelectedTimeableIndex";
     "LastSelectedClipEnvelopeIndex"; "ModulationSourceCount"; "IsFolded"; "IsExpanded";
     "ShouldShowPresetName"; "Annotation"; "UserName"; "ParametersListWrapper";
     "LastPresetRef"; "LockedScripts"; "SendsListWrapper"; "Pointee";
     "ViewStateSesstionTrackWidth"; "SourceContext"; "BranchSelectorRange";
     "IsAutoSelectEnabled"; "ChainSelector"].

Definition MAX_INLINE_PARAMS : nat := 4.

(** ** The script: accessor *)

(** [get_attr(elem, path, default)] *)
Definition get_attr (elem : option Element) (path dflt : string) : string :=
  match elem with
  | None => dflt
  | Some e =>
      match ET.find e path with
      | Some node => ET.get node "Value" dflt
      | None => dflt
      end
  end.

(** ** [os.path] *)

(** [os.path] is the module of the platform the script runs on,
    [posixpath] or [ntpath]; the script calls its [basename]. *)
Class OsPath := {
  basename : string -> string
}.

(** [posixpath.basename(p)]: what follows the last slash. *)
Definition posix_basename (p : string) : string :=
  List.last (Str.split "/" p) EmptyString.

(** [os.path] on a POSIX system; the runs on sample inputs take it. *)
#[global] Instance posixpath : OsPath := {| basename := posix_basename |}.

Fixpoint all_dots (s : string) : bool :=
  match s with
  | EmptyString => true
  | String c s' => Ascii.eqb c "." && all_dots s'
  end.

(** [os.path.splitext(p)[0]] for a [p] that holds no separator, as a
    [basename] does; there [posixpath] and [ntpath] agree: [p] up to its
    last dot, unless only dots come before it. *)
Definition splitext_root (p : string) : string :=
  match List.rev (Str.split "." p) with
  | _ :: (_ :: _) as before =>
      let root := Str.join "." (List.rev before) in
      if all_dots root then p else root
  | _ => p
  end.

(** ** The script: formatters and extractors *)

Record Mixer := {
  mixer_volume : string;
  mixer_pan : string;
  mixer_solo : bool;
  mixer_muted : bool;
  mixer_sends : list string
}.

Record MidiNotes := {
  midi_count : Z;
  midi_range : string
}.

(** The dict of [get_warp_info]: the key ["markers"] is optional. *)
Record Warp := {
  warp_mode : string;
  warp_markers : option Z
}.

Record Loop := {
  loop_start_bar : Z;
  loop_end_bar : Z;
  loop_bars : Z
}.

Record ProjectInfo := {
  info_key : option string;
  info_loop : option Loop
}.

Record Routing := {
  routing_input : option string;
  routing_output : option string;
  routing_midi_in : option string;
  routing_midi_out : option string
}.

(** The dict of [parse_track_state], with the key ["group_name"] that
    [parse_als] adds. A key that is only ever set to [True] is a [bool]. *)
Record TrackState := {
  state_frozen : bool;
  state_group_id : option string;
  state_delay_ms : option spec_float;
  state_crossfade : option string;
  state_group_name : option string
}.

(** The dict of [parse_launch_settings]. *)
Record Launch := {
  launch_mode : option string;
  launch_quant : option string;
  launch_follow : option string;
  launch_ram : bool
}.

Fixpoint skip_digits (s : string) : string :=
  match s with
  | String c s' => if Str.is_digit c then skip_digits s' else s
  | EmptyString => s
  end.

(** [re.match(r'^Macro \d+$', name)]: [$] also matches before a final
    newline. *)
Definition is_default_macro_name (name : string) : bool :=
  let tail := String.substring 6 (String.length name - 6) name in
  let rest := skip_digits tail in
  Str.startswith name "Macro " && negb (String.eqb rest tail)
  && (String.eqb rest "" || String.eqb rest newline).

(** [int(tag.split('.')[1])] *)
Definition macro_index (tag : string) : result Z :=
  match nth_error (Str.split "." tag) 1 with
  | Some s => Str.to_int s
  | None => Raise IndexError
  end.

(** [get_preset_name(dev)] *)
Definition get_preset_name `{os_path : OsPath} (dev : Element) : option string :=
  let is_adv e :=
    ET.has_tag "RelativePath" e && Str.endswith (ET.get e "Value" "") ".adv" in
  match List.find is_adv (ET.iter dev) with
  | Some e => Some (splitext_root (basename (ET.get e "Value" "")))
  | None => None
  end.

(** [get_macro_display_names(dev)]; [macro_index] raises nothing but the
    [ValueError] and [IndexError] that the loop body catches. *)
Definition get_macro_display_names (dev : Element) : gmap Z string :=
  fold_left
    (fun names child =>
       if Str.startswith (ET.tag child) "MacroDisplayNames." then
         match macro_index (ET.tag child) with
         | Ok idx =>
             let name := ET.get child "Value" "" in
             if Str.truthy name && negb (is_default_macro_name name)
             then <[idx := name]> names else names
         | Raise _ => names
         end
       else names)
    (ET.children dev) ∅.

(** [midi_note_name(pitch)] for an [int]; nothing in its [try] block can
    raise then. *)
Definition midi_note_name (pitch : Z) : string :=
  let octave := pitch / 12 - 2 in
  let note := nth (Z.to_nat (pitch mod 12)) NOTE_NAMES "" in
  note +:+ Str.of_Z octave.

(** [format_beats] after [beats = float(beat_str)]. *)
Definition format_beats_of (beats : result spec_float) (beat_str : string) : string :=
  try_except
    (beats ← beats;
     bar ← F64.to_int (F64.floordiv beats (F64.of_Z 4));
     Ok (Str.of_Z (bar + 1) +:+ "." +:+
         F64.format_f false 1 (F64.add (F64.pymod beats (F64.of_Z 4)) (F64.of_Z 1))))
    beat_str.

(** [format_beats(beat_str)] *)
Definition format_beats (beat_str : string) : string :=
  format_beats_of (F64.of_string beat_str) beat_str.

(** [str(x)] of a float that is not finite; the digits of a finite one
    are not needed below. *)
Definition str_nonfinite (x : spec_float) : string :=
  match x with
  | S754_nan => "nan"
  | S754_infinity true => "-inf"
  | S754_infinity false => "inf"
  | _ => ""
  end.

(** [format_beats(str(x))] for a float [x]: [float(str(x))] is [x] again,
    and the [except] branch, which returns [str(x)], is taken only when
    [x] is not finite. *)
Definition format_beats_float (x : spec_float) : string :=
  format_beats_of (Ok x) (str_nonfinite x).

(** [format_pan(pan_value)] *)
Definition format_pan (pan_value : string) : string :=
  try_except
    (val ← F64.of_string pan_value;
     if F64.ltb (F64.abs val) (F64.lit "0.01") then Ok "C"
     else
       pct ← F64.to_int (F64.mul (F64.abs val) (F64.of_Z 50));
       Ok ((if F64.ltb val (F64.of_Z 0) then "L" else "R") +:+ Str.of_Z pct))
    "C".

(** [format_param(value, name)] *)
Definition format_param (value name : string) : string :=
  try_except
    (fval ← F64.of_string value;
     let name_lower := Str.lower name in
     let has p := Str.contains p name_lower in
     if (F64.eqb fval (F64.of_Z 0) || F64.eqb fval (F64.of_Z 1))
        && (negb (has "time") && negb (has "rate")
            && (has "on" || has "sync" || has "link" || has "freeze"))
     then Ok (if F64.eqb fval (F64.of_Z 1) then "on" else "off")
     else if F64.leb (F64.of_Z 0) fval && F64.leb fval (F64.of_Z 1)
             && (has "wet" || has "mix" || has "amount" || has "feedback"
                 || has "depth" || has "gain" || has "drive" || has "resonance")
     then Ok (F64.format_f false 0 (F64.mul fval (F64.of_Z 100)) +:+ "%")
     else if has "freq" && negb (has "mod")
     then Ok (if F64.leb (F64.of_Z 1000) fval
              then F64.format_f false 1 (F64.div fval (F64.of_Z 1000)) +:+ "kHz"
              else F64.format_f false 0 fval +:+ "Hz")
     else if (has "timesec" || has "attack" || has "release" || has "predelay")
             && F64.ltb fval (F64.of_Z 10)
     then Ok (if F64.ltb fval (F64.of_Z 1)
              then F64.format_f false 0 (F64.mul fval (F64.of_Z 1000)) +:+ "ms"
              else F64.format_f false 2 fval +:+ "s")
     else
       n ← F64.to_int fval;
       if F64.eqb_Z fval n then Ok (Str.of_Z n)
       else Ok (F64.format_f false 2 fval))
    value.

(** [has_groove(clip)] *)
Definition has_groove (clip : Element) : bool :=
  try_except
    (g ← Str.to_int (get_attr (Some clip) "GrooveSettings/GrooveId" "-1"); Ok (0 <=? g))
    false.

(** [get_audio_ref(clip)] *)
Definition get_audio_ref `{os_path : OsPath} (clip : Element) : option string :=
  let by_name :=
    match ET.find clip ".//SampleRef/FileRef/Name" with
    | Some ref => Some (ET.get ref "Value" "")
    | None => None
    end in
  match ET.find clip ".//SampleRef/FileRef/RelativePath" with
  | Some ref =>
      let path := ET.get ref "Value" "" in
      if Str.truthy path then Some (basename path) else by_name
  | None => by_name
  end.

(** One fade of [get_fades]: nothing is reported when the length does not
    parse or does not exceed 0.001. *)
Definition fade_entry (label length : string) : list string :=
  try_except
    (f ← F64.of_string length;
     if F64.ltb (F64.lit "0.001") f then
       Ok [if F64.leb (F64.of_Z 1) f
           then label +:+ F64.format_f false 2 f +:+ "s"
           else label +:+ F64.format_f false 0 (F64.mul f (F64.of_Z 1000)) +:+ "ms"]
     else Ok [])
    [].

(** [get_fades(clip)]; the script also computes [fades_on] and never
    reads it. *)
Definition get_fades (clip : Element) : list string :=
  let fade_in := get_attr (Some clip) "Fades/FadeInLength" "0" in
  let fade_out := get_attr (Some clip) "Fades/FadeOutLength" "0" in
  fade_entry "fade in: " fade_in ++ fade_entry "fade out: " fade_out.

(** [get_warp_info(clip)]: [int(warp_mode)] is outside any [try]. *)
Definition get_warp_info (clip : Element) : result (option Warp) :=
  let is_warped := String.eqb (get_attr (Some clip) "IsWarped" "true") "true" in
  if negb is_warped then Ok None
  else
    let warp_mode := get_attr (Some clip) "WarpMode" "0" in
    mode ← Str.to_int warp_mode;
    let mode_name := default "Unknown" (WARP_MODES !! mode) in
    let markers := ET.findall clip ".//WarpMarkers/WarpMarker" in
    let marker_count := Z.of_nat (length markers) in
    if 2 <? marker_count
    then Ok (Some {| warp_mode := mode_name; warp_markers := Some marker_count |})
    else if 0 <? marker_count
    then Ok (Some {| warp_mode := mode_name; warp_markers := None |})
    else Ok None.

Definition list_min (x : Z) (l : list Z) : Z := fold_left Z.min l x.
Definition list_max (x : Z) (l : list Z) : Z := fold_left Z.max l x.

(** [parse_midi_notes(clip)] *)
Definition parse_midi_notes (clip : Element) : option MidiNotes :=
  let keytracks := ET.findall clip ".//Notes/KeyTracks/KeyTrack" in
  let '(pitches, note_count) :=
    fold_left
      (fun '(pitches, note_count) kt =>
         match ET.find kt "MidiKey" with
         | Some midi_key =>
             let pitch :=
               match ET.get_opt midi_key "Value" with
               | Some v => Str.to_int v
               | None => Ok 0
               end in
             match pitch with
             | Ok pitch =>
                 match ET.findall kt "Notes/MidiNoteEvent" with
                 | [] => (pitches, note_count)
                 | notes_in_track =>
                     (pitches ++ [pitch], note_count + Z.of_nat (length notes_in_track))
                 end
             | Raise _ => (pitches, note_count)
             end
         | None => (pitches, note_count)
         end)
      keytracks ([], 0) in
  match pitches with
  | [] => None
  | p :: ps =>
      if note_count =? 0 then None
      else Some {| midi_count := note_count;
                   midi_range := midi_note_name (list_min p ps) +:+ "-" +:+
                                 midi_note_name (list_max p ps) |}
  end.

(** The key of [parse_project_info]. *)
Definition parse_key (root : Element) : option string :=
  match ET.find root ".//ScaleInformation" with
  | Some scale =>
      try_except
        (root_note ← Str.to_int (get_attr (Some scale) "RootNote" "0");
         let scale_name := get_attr (Some scale) "Name" "Major" in
         if (0 <=? root_note) && (root_note <? 12)
         then Ok (Some (nth (Z.to_nat root_note) NOTE_NAMES_FLAT "" +:+ " " +:+ scale_name))
         else Ok None)
        None
  | None => None
  end.

(** The loop region of [parse_project_info]. *)
Definition parse_loop (root : Element) : option Loop :=
  match ET.find root ".//Transport" with
  | Some transport =>
      if String.eqb (get_attr (Some transport) "LoopOn" "false") "true" then
        try_except
          (start ← F64.of_string (get_attr (Some transport) "LoopStart" "0");
           length ← F64.of_string (get_attr (Some transport) "LoopLength" "16");
           start_bar ← F64.to_int (F64.floordiv start (F64.of_Z 4));
           end_bar ← F64.to_int (F64.floordiv (F64.add start length) (F64.of_Z 4));
           bars ← F64.to_int (F64.floordiv length (F64.of_Z 4));
           Ok (Some {| loop_start_bar := start_bar + 1;
                       loop_end_bar := end_bar + 1;
                       loop_bars := bars |}))
          None
      else None
  | None => None
  end.

(** [parse_project_info(root)] *)
Definition parse_project_info (root : Element) : ProjectInfo :=
  {| info_key := parse_key root; info_loop := parse_loop root |}.

(** One entry of [parse_track_routing]. *)
Definition parse_route (track : Element) (rtype : string) : option string :=
  match ET.find track (".//DeviceChain/" +:+ rtype) with
  | Some elem =>
      let upper := get_attr (Some elem) "UpperDisplayString" "" in
      let lower := get_attr (Some elem) "LowerDisplayString" "" in
      if Str.truthy upper
      then Some (if Str.truthy lower then Str.strip (upper +:+ " " +:+ lower) else upper)
      else None
  | None => None
  end.

(** [parse_track_routing(track)] *)
Definition parse_track_routing (track : Element) : Routing :=
  {| routing_input := parse_route track "AudioInputRouting";
     routing_output := parse_route track "AudioOutputRouting";
     routing_midi_in := parse_route track "MidiInputRouting";
     routing_midi_out := parse_route track "MidiOutputRouting" |}.

(** [parse_track_state(track)] *)
Definition parse_track_state (track : Element) : TrackState :=
  let group_id := get_attr (Some track) "TrackGroupId" "-1" in
  {| state_frozen := String.eqb (get_attr (Some track) "Freeze" "false") "true";
     state_group_id := if String.eqb group_id "-1" then None else Some group_id;
     state_delay_ms :=
       match ET.find track "TrackDelay" with
       | Some delay_elem =>
           try_except
             (delay_ms ← F64.of_string (get_attr (Some delay_elem) "Value" "0");
              if F64.ltb (F64.lit "0.01") (F64.abs delay_ms)
              then Ok (Some delay_ms) else Ok None)
             None
       | None => None
       end;
     state_crossfade :=
       try_except
         (cf ← Str.to_int (get_attr (Some track) ".//Mixer/CrossFadeState" "0");
          Ok (match default None (CROSSFADE_STATES !! cf) with
              | Some s => if Str.truthy s then Some s else None
              | None => None
              end))
         None;
     state_group_name := None |}.

(** The empty dict that a master track gets for its routing and state. *)
Definition no_routing : Routing :=
  {| routing_input := None; routing_output := None;
     routing_midi_in := None; routing_midi_out := None |}.
Definition no_state : TrackState :=
  {| state_frozen := false; state_group_id := None; state_delay_ms := None;
     state_crossfade := None; state_group_name := None |}.

(** [build_group_map(root)] *)
Definition build_group_map (root : Element) : gmap string string :=
  fold_left
    (fun groups track =>
       let name := get_attr (Some track) "Name/EffectiveName" "Group" in
       match ET.get_opt track "Id" with
       | Some track_id => if Str.truthy track_id then <[track_id := name]> groups else groups
       | None => groups
       end)
    (ET.findall root ".//Tracks/GroupTrack") ∅.

(** [parse_launch_settings(clip)] *)
Definition parse_launch_settings (clip : Element) : Launch :=
  {| launch_mode :=
       try_except
         (mode ← Str.to_int (get_attr (Some clip) "LaunchMode" "0");
          if negb (mode =? 0)
          then Ok (Some (default (Str.of_Z mode) (LAUNCH_MODES !! mode))) else Ok None)
         None;
     launch_quant :=
       try_except
         (quant ← Str.to_int (get_attr (Some clip) "LaunchQuantisation" "0");
          if 0 <? quant
          then Ok (Some (default (Str.of_Z quant) (LAUNCH_QUANT !! quant))) else Ok None)
         None;
     launch_follow :=
       if String.eqb (get_attr (Some clip) "FollowAction/FollowActionEnabled" "false") "true"
       then
         let fa_a := get_attr (Some clip) "FollowAction/FollowActionA" "0" in
         let fa_time := get_attr (Some clip) "FollowAction/FollowTime" "4" in
         try_except
           (a ← Str.to_int fa_a;
            let action := default "unknown" (FOLLOW_ACTIONS !! a) in
            if negb (String.eqb action "none") then
              t ← F64.of_string fa_time;
              let time_bars := F64.div t (F64.of_Z 4) in
              Ok (Some (action +:+ " @ " +:+ F64.format_f false 0 time_bars +:+
                        (if F64.eqb time_bars (F64.of_Z 1) then " bar" else " bars")))
            else Ok None)
           None
       else None;
     launch_ram := String.eqb (get_attr (Some clip) "Ram" "false") "true" |}.

Definition present {A} (o : option A) : bool :=
  match o with Some _ => true | None => false end.

(** Truth value of the dict of launch settings: some key is present. *)
Definition launch_truthy (l : Launch) : bool :=
  present (launch_mode l) || present (launch_quant l)
  || present (launch_follow l) || launch_ram l.

Record Device := {
  device_name : string;
  device_is_on : bool;
  device_params : list (string * string)
}.

(** The dict [clip_info] of [parse_clip]. A key that is stored only when
    its list is not empty is that list; a key stored only when its value
    is true is an [option] or a [bool]. *)
Record Clip := {
  clip_name : string;
  clip_start : string;
  clip_end : string;
  clip_looped : bool;
  clip_muted : bool;
  clip_time_float : spec_float;
  clip_offset : option string;
  clip_audio_file : option string;
  clip_adjustments : list string;
  clip_fades : list string;
  clip_warp : option Warp;
  clip_midi_notes : option MidiNotes;
  clip_groove : bool;
  clip_launch : option Launch
}.

(** The dict of [parse_track]; an empty mixer dict is [None]. *)
Record Track := {
  track_type : string;
  track_name : string;
  track_color : string;
  track_devices : list Device;
  track_arrangement_clips : list Clip;
  track_session_clips : list Clip;
  track_mixer : option Mixer;
  track_routing : Routing;
  track_state : TrackState
}.

Record Scene := {
  scene_index : Z;
  scene_name : string
}.

Record Locator := {
  locator_name : string;
  locator_time : string
}.

Record Tracks := {
  tracks_audio : list Track;
  tracks_midi : list Track;
  tracks_return : list Track;
  tracks_group : list Track
}.

Record Project := {
  project_creator : string;
  project_tempo : string;
  project_time_sig : string;
  project_tracks : Tracks;
  project_locators : list Locator;
  project_master : option Track;
  project_scenes : list Scene;
  project_tempo_automated : bool;
  project_info : ProjectInfo
}.

(** What [parse_als] returns: the dict with the single key ["error"], or
    the project dict. *)
Inductive Parsed :=
  | ErrorResult (error : string)
  | ProjectResult (p : Project).

(** The outcome of a library call that fails with an exception whose
    [str()] is [msg]. *)
Inductive lib (A : Type) :=
  | Done (a : A)
  | Failed (msg : string).
Arguments Done {A} a.
Arguments Failed {A} msg.

#[global] Instance lib_ret : MRet lib := fun A a => Done a.
#[global] Instance lib_bind : MBind lib := fun A B f r =>
  match r with Done a => f a | Failed m => Failed m end.

(** [d[k] = v] on a dict kept in insertion order. *)
Fixpoint dict_set (k v : string) (d : list (string * string)) : list (string * string) :=
  match d with
  | [] => [(k, v)]
  | (k', v') :: d' =>
      if String.eqb k' k then (k, v) :: d' else (k', v') :: dict_set k v d'
  end.

(** [enumerate(l, start)] *)
Fixpoint enumerate {A} (start : Z) (l : list A) : list (Z * A) :=
  match l with
  | [] => []
  | x :: l' => (start, x) :: enumerate (start + 1) l'
  end.

(** [a or b] on strings. *)
Definition str_or (a b : string) : string := if Str.truthy a then a else b.

(** The value of [child.find('Manual')] when that element exists and
    carries a non-empty [Value]. *)
Definition manual_value (child : Element) : option string :=
  match ET.find child "Manual" with
  | Some manual =>
      match ET.get_opt manual "Value" with
      | Some v => if Str.truthy v then Some v else None
      | None => None
      end
  | None => None
  end.

(** The parameters of one device, the inner loop of [parse_track]. *)
Definition parse_params (dev : Element) (macro_names : gmap Z string)
  : list (string * string) :=
  fold_left
    (fun params child =>
       let tag := ET.tag child in
       if bool_decide (tag ∈ SKIP_PARAMS) || String.eqb tag "On" then params
       else if Str.startswith tag "MacroDisplayNames." then params
       else if Str.startswith tag "MacroControls." then
         match manual_value child with
         | Some v =>
             match macro_index tag with
             | Ok idx =>
                 match macro_names !! idx with
                 | Some param_name => dict_set param_name (format_param v param_name) params
                 | None => params
                 end
             | Raise _ => params
             end
         | None => params
         end
       else
         match manual_value child with
         | Some v => dict_set tag (format_param v tag) params
         | None => params
         end)
    (ET.children dev) [].

Definition BRANCH_GROUPS : list string :=
  ["AudioEffectBranchGroup"; "MidiEffectBranchGroup"; "InstrumentBranchGroup"].

(** One device of the device loop of [parse_track]. *)
Definition parse_device `{os_path : OsPath} (dev : Element) : Device :=
  let preset :=
    str_or (default "" (get_preset_name dev))
      (str_or (get_attr (Some dev) "UserName" "") (ET.tag dev)) in
  let is_on := String.eqb (get_attr (Some dev) "On/Manual" "true") "true" in
  let macro_names :=
    if Str.endswith (ET.tag dev) "GroupDevice" then get_macro_display_names dev else ∅ in
  {| device_name := preset; device_is_on := is_on;
     device_params := parse_params dev macro_names |}.

(** The device loop of [parse_track]. *)
Definition parse_devices `{os_path : OsPath} (track : Element) (is_master : bool) : list Device :=
  let devices_elem :=
    if is_master then ET.find track ".//DeviceChain/Devices"
    else ET.find track ".//DeviceChain/DeviceChain/Devices" in
  match devices_elem with
  | Some devices_elem =>
      map parse_device
        (List.filter (fun dev => negb (existsb (String.eqb (ET.tag dev)) BRANCH_GROUPS))
           (ET.children devices_elem))
  | None => []
  end.

(** [list.sort(key=time_float)]: a stable sort. Python leaves the order
    open when a key is NaN. *)
Fixpoint insert_by_time (c : Clip) (l : list Clip) : list Clip :=
  match l with
  | [] => [c]
  | d :: l' =>
      if F64.ltb (clip_time_float c) (clip_time_float d) then c :: d :: l'
      else d :: insert_by_time c l'
  end.

Definition sort_by_time (l : list Clip) : list Clip :=
  fold_left (fun sorted c => insert_by_time c sorted) l [].

(** [parse_scenes(root)] *)
Definition parse_scenes (root : Element) : list Scene :=
  match ET.find root ".//Scenes" with
  | Some scenes_elem =>
      omap
        (fun '(i, scene) =>
           let name := get_attr (Some scene) "Name" "" in
           if Str.truthy name && negb (Str.startswith name "Scene ")
           then Some {| scene_index := i; scene_name := name |}
           else None)
        (enumerate 1 (ET.findall scenes_elem "Scene"))
  | None => []
  end.

(** [is_tempo_automated(root)] *)
Definition is_tempo_automated (root : Element) : bool :=
  let envelope :=
    ".//MasterTrack//AutomationEnvelopes//Envelopes//AutomationEnvelope" in
  let pointee :=
    match ET.find root envelope with
    | Some tempo_automation => present (ET.find tempo_automation ".//PointeeId")
    | None => false
    end in
  if pointee then true
  else
    let tempo_events := ET.findall root (envelope +:+ "//Events//FloatEvent") in
    (1 <? length tempo_events)%nat.

(** The locators of [parse_als]. *)
Definition parse_locators (root : Element) : list Locator :=
  omap
    (fun loc =>
       let loc_name := get_attr (Some loc) "Name" "" in
       let loc_time := get_attr (Some loc) "Time" "0" in
       if Str.truthy loc_name
       then Some {| locator_name := loc_name; locator_time := format_beats loc_time |}
       else None)
    (ET.findall root ".//Locators/Locators/Locator").

(** ** The script: what depends on the libraries *)

Section Script.

(** [os.path] of the platform. *)
Context `{os_path : OsPath}.

(** [math.log10] of the C library. *)
Variable log10 : spec_float -> spec_float.

(** [open(filepath, 'rb').read()], [gzip.decompress], [bytes.decode('utf-8')]
    and [ET.fromstring]. *)
Variable read_file : string -> lib (list Byte.byte).
Variable gzip_decompress : list Byte.byte -> lib (list Byte.byte).
Variable decode_utf8 : list Byte.byte -> lib string.
Variable fromstring : string -> lib Element.

(** [format_db] after [val = float(linear_value)]. *)
Definition format_db_of (val : result spec_float) : string :=
  try_except
    (val ← val;
     if F64.leb val (F64.of_Z 0) then Ok "-inf"
     else
       let db := F64.mul (F64.of_Z 20) (log10 val) in
       if F64.ltb (F64.abs db) (F64.lit "0.1") then Ok "0dB"
       else
         n ← F64.to_int db;
         if negb (F64.eqb_Z db n) then Ok (F64.format_f true 1 db +:+ "dB")
         else Ok (Str.of_Z_signed n +:+ "dB"))
    "0dB".

(** [format_db(linear_value)] for a [str]. *)
Definition format_db (linear_value : string) : string :=
  format_db_of (F64.of_string linear_value).

(** [format_db(linear_value)] for a [float]. *)
Definition format_db_float (linear_value : spec_float) : string :=
  format_db_of (Ok linear_value).

(** [parse_track_mixer(track)] *)
Definition parse_track_mixer (track : Element) : option Mixer :=
  match ET.find track ".//DeviceChain/Mixer" with
  | None => None
  | Some mixer =>
      let volume := get_attr (Some mixer) "Volume/Manual" "1" in
      let pan := get_attr (Some mixer) "Pan/Manual" "0" in
      let solo := String.eqb (get_attr (Some mixer) "SoloSink" "false") "true" in
      let muted := String.eqb (get_attr (Some mixer) "Speaker/Manual" "true") "false" in
      let sends :=
        match ET.find mixer "Sends" with
        | Some sends_elem =>
            map (fun holder =>
                   format_db (get_attr (Some holder) "Send/Manual" "0.0003162277571"))
              (ET.findall sends_elem "TrackSendHolder")
        | None => []
        end in
      Some {| mixer_volume := format_db volume; mixer_pan := format_pan pan;
              mixer_solo := solo; mixer_muted := muted; mixer_sends := sends |}
  end.

(** [get_clip_adjustments(clip)] *)
Definition get_clip_adjustments (clip : Element) : list string :=
  let volume := get_attr (Some clip) "SampleVolume" "1" in
  let transpose := get_attr (Some clip) "PitchCoarse" "0" in
  let fine := get_attr (Some clip) "PitchFine" "0" in
  try_except
    (vol ← F64.of_string volume;
     if F64.ltb (F64.lit "0.01") (F64.abs (F64.sub vol (F64.lit "1.0")))
     then Ok [format_db_float vol] else Ok [])
    []
  ++
  try_except
    (x ← F64.of_string transpose;
     t ← F64.to_int x;
     if negb (t =? 0) then Ok [Str.of_Z_signed t +:+ "st"] else Ok [])
    []
  ++
  try_except
    (f ← F64.of_string fine;
     if F64.ltb (F64.lit "0.1") (F64.abs f)
     then Ok [F64.format_f true 0 f +:+ "ct"] else Ok [])
    [].

(** [parse_clip(clip)], the function nested in [parse_track]. Two
    conversions are outside any [try]: [float(clip.get("Time", "0"))]
    and, through [get_warp_info], [int(warp_mode)]. *)
Definition parse_clip (clip : Element) : result Clip :=
  let is_audio := String.eqb (ET.tag clip) "AudioClip" in
  let clip_name := get_attr (Some clip) "Name" "unnamed" in
  let start := format_beats (ET.get clip "Time" "0") in
  let end_ := format_beats (get_attr (Some clip) "CurrentEnd" "?") in
  let looped := String.eqb (get_attr (Some clip) "Loop/LoopOn" "false") "true" in
  let muted := String.eqb (get_attr (Some clip) "Disabled" "false") "true" in
  let loop_start := get_attr (Some clip) "Loop/LoopStart" "0" in
  let start_rel := get_attr (Some clip) "Loop/StartRelative" "0" in
  time_float ← F64.of_string (ET.get clip "Time" "0");
  let offset :=
    try_except
      (ls ← F64.of_string loop_start;
       sr ← F64.of_string start_rel;
       if negb (F64.eqb sr (F64.of_Z 0)) || negb (F64.eqb ls (F64.of_Z 0))
       then Ok (Some (format_beats_float (F64.add ls sr))) else Ok None)
      None in
  warp ← (if is_audio then get_warp_info clip else Ok None);
  Ok {| clip_name := clip_name; clip_start := start; clip_end := end_;
        clip_looped := looped; clip_muted := muted; clip_time_float := time_float;
        clip_offset := offset;
        clip_audio_file :=
          if is_audio then
            match get_audio_ref clip with
            | Some r => if Str.truthy r then Some r else None
            | None => None
            end
          else None;
        clip_adjustments := if is_audio then get_clip_adjustments clip else [];
        clip_fades := if is_audio then get_fades clip else [];
        clip_warp := warp;
        clip_midi_notes := if is_audio then None else parse_midi_notes clip;
        clip_groove := has_groove clip;
        clip_launch := None |}.

(** A session clip: [parse_clip], then the launch settings when there
    are any. *)
Definition parse_session_clip (clip : Element) : result Clip :=
  clip_info ← parse_clip clip;
  let launch := parse_launch_settings clip in
  Ok (if launch_truthy launch
      then {| clip_name := clip_name clip_info; clip_start := clip_start clip_info;
              clip_end := clip_end clip_info; clip_looped := clip_looped clip_info;
              clip_muted := clip_muted clip_info;
              clip_time_float := clip_time_float clip_info;
              clip_offset := clip_offset clip_info;
              clip_audio_file := clip_audio_file clip_info;
              clip_adjustments := clip_adjustments clip_info;
              clip_fades := clip_fades clip_info; clip_warp := clip_warp clip_info;
              clip_midi_notes := clip_midi_notes clip_info;
              clip_groove := clip_groove clip_info; clip_launch := Some launch |}
      else clip_info).

(** The clip elements that the session loop of [parse_track] visits. *)
Definition session_clip_elements (track : Element) : list Element :=
  ET.findall track ".//ClipSlotList//AudioClip"
  ++ ET.findall track ".//ClipSlotList//MidiClip".

(** The clip elements that the arrangement loop of [parse_track] visits. *)
Definition arrangement_clip_elements (track : Element) : list Element :=
  ET.findall track ".//ArrangerAutomation/Events/AudioClip"
  ++ ET.findall track ".//ArrangerAutomation/Events/MidiClip".

(** [parse_track(track, is_master)] *)
Definition parse_track (track : Element) (is_master : bool) : result Track :=
  let name := get_attr (Some track) "Name/EffectiveName" "Untitled" in
  let color := default "Default" (COLORS !! get_attr (Some track) "Color" "69") in
  let mixer := parse_track_mixer track in
  let routing := if is_master then no_routing else parse_track_routing track in
  let state := if is_master then no_state else parse_track_state track in
  let devices := parse_devices track is_master in
  arrangement_clips ← mapR parse_clip (arrangement_clip_elements track);
  let arrangement_clips := sort_by_time arrangement_clips in
  session_clips ← mapR parse_session_clip (session_clip_elements track);
  Ok {| track_type := Str.replace (ET.tag track) "Track" ""; track_name := name;
        track_color := color; track_devices := devices;
        track_arrangement_clips := arrangement_clips;
        track_session_clips := session_clips; track_mixer := mixer;
        track_routing := routing; track_state := state |}.

(** [parse_master_track(root)] *)
Definition parse_master_track (root : Element) : result (option Track) :=
  match ET.find root ".//MasterTrack" with
  | None => Ok None
  | Some master => t ← parse_track master true; Ok (Some t)
  end.

(** The group name that [parse_als] adds to the state of a track whose
    group id is a key of the group map. *)
Definition resolve_group (group_map : gmap string string) (info : Track) : Track :=
  let state := track_state info in
  match state_group_id state with
  | Some group_id =>
      match (if Str.truthy group_id then group_map !! group_id else None) with
      | Some group_name =>
          {| track_type := track_type info; track_name := track_name info;
             track_color := track_color info; track_devices := track_devices info;
             track_arrangement_clips := track_arrangement_clips info;
             track_session_clips := track_session_clips info;
             track_mixer := track_mixer info; track_routing := track_routing info;
             track_state :=
               {| state_frozen := state_frozen state;
                  state_group_id := state_group_id state;
                  state_delay_ms := state_delay_ms state;
                  state_crossfade := state_crossfade state;
                  state_group_name := Some group_name |} |}
      | None => info
      end
  | None => info
  end.

Definition no_tracks : Tracks :=
  {| tracks_audio := []; tracks_midi := []; tracks_return := []; tracks_group := [] |}.

(** The [if]/[elif] chain on [t.tag] in the track loop of [parse_als];
    there is no [else]. *)
Definition add_track (tag : string) (info : Track) (tracks : Tracks) : Tracks :=
  if String.eqb tag "AudioTrack" then
    {| tracks_audio := tracks_audio tracks ++ [info]; tracks_midi := tracks_midi tracks;
       tracks_return := tracks_return tracks; tracks_group := tracks_group tracks |}
  else if String.eqb tag "MidiTrack" then
    {| tracks_audio := tracks_audio tracks; tracks_midi := tracks_midi tracks ++ [info];
       tracks_return := tracks_return tracks; tracks_group := tracks_group tracks |}
  else if String.eqb tag "ReturnTrack" then
    {| tracks_audio := tracks_audio tracks; tracks_midi := tracks_midi tracks;
       tracks_return := tracks_return tracks ++ [info]; tracks_group := tracks_group tracks |}
  else if String.eqb tag "GroupTrack" then
    {| tracks_audio := tracks_audio tracks; tracks_midi := tracks_midi tracks;
       tracks_return := tracks_return tracks; tracks_group := tracks_group tracks ++ [info] |}
  else tracks.

(** The track loop of [parse_als] over the children of the [Tracks]
    element: every child is parsed, also one that no list receives. *)
Fixpoint parse_tracks (group_map : gmap string string) (children : list Element)
  (tracks : Tracks) : result Tracks :=
  match children with
  | [] => Ok tracks
  | t :: rest =>
      info ← parse_track t false;
      parse_tracks group_map rest (add_track (ET.tag t) (resolve_group group_map info) tracks)
  end.

(** [parse_als] from [root = ET.fromstring(xml_data)] on. *)
Definition parse_root (root : Element) : result Parsed :=
  let project_info := parse_project_info root in
  let group_map := build_group_map root in
  tracks ←
    match ET.find root ".//Tracks" with
    | Some tracks_elem => parse_tracks group_map (ET.children tracks_elem) no_tracks
    | None => Ok no_tracks
    end;
  let locators := parse_locators root in
  master ← parse_master_track root;
  let scenes := parse_scenes root in
  let tempo_automated := is_tempo_automated root in
  Ok (ProjectResult
        {| project_creator := ET.get root "Creator" "Unknown";
           project_tempo := get_attr (Some root) ".//Tempo/Manual" "120";
           project_time_sig :=
             get_attr (Some root) ".//TimeSignature/Manual/Numerator" "4" +:+ "/" +:+
             get_attr (Some root) ".//TimeSignature/Manual/Denominator" "4";
           project_tracks := tracks; project_locators := locators;
           project_master := master; project_scenes := scenes;
           project_tempo_automated := tempo_automated;
           project_info := project_info |}).

(** [gzip.decompress(f.read()).decode('utf-8')] on the opened file. *)
Definition load_text (filepath : string) : lib string :=
  data ← read_file filepath; raw ← gzip_decompress data; decode_utf8 raw.

(** [parse_als(filepath)]: the [try] block holds the reading, the
    decompression and the decoding; [ET.fromstring] comes after it. *)
Definition parse_als (filepath : string) : result Parsed :=
  match load_text filepath with
  | Failed e => Ok (ErrorResult e)
  | Done xml_data =>
      match fromstring xml_data with
      | Failed e => Raise (ParseError e)
      | Done root => parse_root root
      end
  end.

End Script.

(** ** The script: renderer *)

(** [format_device_params(params, indent)] *)
Definition format_device_params (params : list (string * string)) (indent : string)
  : string :=
  match params with
  | [] => ""
  | _ =>
      if (length params <=? MAX_INLINE_PARAMS)%nat then
        " (" +:+ Str.join ", " (map (fun '(k, v) => k +:+ "=" +:+ v) params) +:+ ")"
      else
        Str.join newline
          (":" :: map (fun '(k, v) => indent +:+ "    " +:+ k +:+ ": " +:+ v) params)
  end.

(** The send entries of [format_mixer_info], from index [i] on; the label
    is [chr(65 + i)]. *)
Fixpoint format_sends (i : nat) (sends : list string) : list string :=
  match sends with
  | [] => []
  | send :: rest =>
      (if negb (String.eqb send "-inf")
       then ["Send " +:+ String (ascii_of_nat (65 + i)) EmptyString +:+ ": " +:+ send]
       else [])
      ++ format_sends (S i) rest
  end.

(** [format_mixer_info(mixer)] *)
Definition format_mixer_info (mixer : option Mixer) : string :=
  match mixer with
  | None => ""
  | Some mixer =>
      let parts :=
        (if mixer_solo mixer then ["SOLO"] else [])
        ++ (if mixer_muted mixer then ["MUTED"] else [])
        ++ ["Vol: " +:+ mixer_volume mixer; "Pan: " +:+ mixer_pan mixer]
        ++ format_sends 0 (mixer_sends mixer) in
      match parts with
      | [] => ""
      | _ => " [" +:+ Str.join ", " parts +:+ "]"
      end
  end.

(** The entry of an optional string key that is shown when it is present
    and not empty. *)
Definition shown (o : option string) (f : string -> string) : list string :=
  match o with
  | Some s => if Str.truthy s then [f s] else []
  | None => []
  end.

(** [format_clip(c, is_session)], the helper nested in [format_output]. *)
Definition format_clip (c : Clip) (is_session : bool) : string :=
  let flags :=
    (if clip_looped c then ["loop"] else [])
    ++ (if clip_muted c then ["muted"] else [])
    ++ shown (clip_offset c) (fun o => "from " +:+ o)
    ++ shown (clip_audio_file c) (fun f => f)
    ++ match clip_midi_notes c with
       | Some mi => [Str.of_Z (midi_count mi) +:+ " notes, " +:+ midi_range mi]
       | None => []
       end
    ++ clip_adjustments c
    ++ clip_fades c
    ++ match clip_warp c with
       | Some w =>
           ["warped: " +:+ warp_mode w +:+
            match warp_markers w with
            | Some n => ", " +:+ Str.of_Z n +:+ " markers"
            | None => ""
            end]
       | None => []
       end
    ++ (if clip_groove c then ["groove"] else [])
    ++ match clip_launch c with
       | Some launch =>
           if is_session then
             shown (launch_mode launch) (fun m => m)
             ++ shown (launch_quant launch) (fun q => q)
             ++ shown (launch_follow launch) (fun f => "follow: " +:+ f)
             ++ (if launch_ram launch then ["RAM"] else [])
           else []
       | None => []
       end in
  let flag_str :=
    match flags with
    | [] => ""
    | _ => " [" +:+ Str.join ", " flags +:+ "]"
    end in
  dquote +:+ clip_name c +:+ dquote +:+ " @ " +:+ clip_start c +:+ " - " +:+ clip_end c
  +:+ flag_str.

(** The device lines of a track, [status] and parameters included. *)
Definition format_device (prefix indent : string) (d : Device) : string :=
  prefix +:+ (if device_is_on d then "" else "[OFF] ") +:+ device_name d
  +:+ format_device_params (device_params d) indent.

(** The lines of the arrangement clips of a track: all of them. *)
Definition format_arrangement (arr_clips : list Clip) : list string :=
  match arr_clips with
  | [] => []
  | _ =>
      ("      Arrangement (" +:+ Str.of_Z (Z.of_nat (length arr_clips)) +:+ "):")
      :: map (fun c => "        - " +:+ format_clip c false) arr_clips
  end.

(** The lines of the session clips of a track: the count, [sess_clips[:3]]
    and, beyond three, how many more there are. *)
Definition format_session (sess_clips : list Clip) : list string :=
  match sess_clips with
  | [] => []
  | _ =>
      ("      Session Slots (" +:+ Str.of_Z (Z.of_nat (length sess_clips)) +:+ "):")
      :: map (fun c => "        - " +:+ format_clip c true) (firstn 3 sess_clips)
      ++ (if (3 <? length sess_clips)%nat
          then ["        ... and " +:+ Str.of_Z (Z.of_nat (length sess_clips) - 3)
                +:+ " more in slots"]
          else [])
  end.

(** The lines of one track of a track list, [i] being its number. *)
Definition format_track (i : Z) (t : Track) : list string :=
  let state := track_state t in
  let routing := track_routing t in
  let state_flags := if state_frozen state then ["FROZEN"] else [] in
  let mixer_str := format_mixer_info (track_mixer t) in
  let extra :=
    shown (state_crossfade state) (fun x => "XF: " +:+ x)
    ++ match state_delay_ms state with
       | Some d =>
           if F64.nonzero d then ["delay: " +:+ F64.format_f false 0 d +:+ "ms"] else []
       | None => []
       end in
  let input_r := default "" (routing_input routing) in
  let output_r := default "" (routing_output routing) in
  let routing_str :=
    (if Str.truthy input_r && negb (Str.startswith input_r "Ext. In")
     then " In: " +:+ input_r else "")
    +:+ (if Str.truthy output_r && negb (String.eqb output_r "Master")
         then " → " +:+ output_r else "") in
  let group_str :=
    match shown (state_group_name state) (fun g => " (in " +:+ dquote +:+ g +:+ dquote +:+ ")")
    with
    | s :: _ => s
    | [] => ""
    end in
  let flags_str :=
    match state_flags with
    | [] => ""
    | _ => " [" +:+ Str.join ", " state_flags +:+ "]"
    end in
  let extra_str :=
    match extra with
    | [] => ""
    | _ => " [" +:+ Str.join ", " extra +:+ "]"
    end in
  ("  [" +:+ Str.of_Z i +:+ "] " +:+ track_name t +:+ " (" +:+ track_color t +:+ ")"
   +:+ flags_str +:+ mixer_str +:+ extra_str +:+ routing_str +:+ group_str)
  :: match track_devices t with
     | [] => []
     | ds => "      Devices:" :: map (format_device "        - " "          ") ds
     end
  ++ format_arrangement (track_arrangement_clips t)
  ++ format_session (track_session_clips t).

(** The section of one kind of track. *)
Definition format_track_list (label : string) (l : list Track) : list string :=
  match l with
  | [] => []
  | _ =>
      [Str.repeat "-" 40;
       label +:+ " TRACKS (" +:+ Str.of_Z (Z.of_nat (length l)) +:+ "):"]
      ++ flat_map (fun '(i, t) => format_track i t) (enumerate 1 l)
      ++ [""]
  end.

(** The lines of the project dict. *)
Definition format_project (p : Project) : list string :=
  let tempo_str :=
    project_tempo p +:+ " BPM"
    +:+ (if project_tempo_automated p then " [automated]" else "") in
  let proj := project_info p in
  [Str.repeat "=" 60; "ABLETON PROJECT SUMMARY"; Str.repeat "=" 60;
   "Creator: " +:+ project_creator p]
  ++ shown (info_key proj) (fun k => "Key: " +:+ k)
  ++ ["Tempo: " +:+ tempo_str; "Time Signature: " +:+ project_time_sig p]
  ++ match info_loop proj with
     | Some loop =>
         ["Loop: bars " +:+ Str.of_Z (loop_start_bar loop) +:+ "-"
          +:+ Str.of_Z (loop_end_bar loop) +:+ " (" +:+ Str.of_Z (loop_bars loop) +:+ " "
          +:+ (if loop_bars loop =? 1 then "bar" else "bars") +:+ ")"]
     | None => []
     end
  ++ [""]
  ++ match project_locators p with
     | [] => []
     | locs =>
         [Str.repeat "-" 40; "MARKERS:"]
         ++ map (fun loc => "  [" +:+ locator_time loc +:+ "] " +:+ locator_name loc) locs
         ++ [""]
     end
  ++ format_track_list "AUDIO" (tracks_audio (project_tracks p))
  ++ format_track_list "MIDI" (tracks_midi (project_tracks p))
  ++ format_track_list "RETURN" (tracks_return (project_tracks p))
  ++ format_track_list "GROUP" (tracks_group (project_tracks p))
  ++ match project_master p with
     | Some m =>
         [Str.repeat "-" 40; "MASTER:"]
         ++ match track_mixer m with
            | Some mixer => ["  Volume: " +:+ mixer_volume mixer]
            | None => []
            end
         ++ match track_devices m with
            | [] => []
            | ds => "  Devices:" :: map (format_device "    - " "      ") ds
            end
         ++ [""]
     | None => []
     end
  ++ match project_scenes p with
     | [] => []
     | scenes =>
         [Str.repeat "-" 40; "SCENES:"]
         ++ map (fun s => "  [" +:+ Str.of_Z (scene_index s) +:+ "] " +:+ scene_name s) scenes
         ++ [""]
     end
  ++ [Str.repeat "=" 60].

(** [format_output(p)] *)
Definition format_output (p : Parsed) : string :=
  match p with
  | ErrorResult error => "ERROR: " +:+ error
  | ProjectResult p => Str.join newline (format_project p)
  end.

(** [print(format_output(parse_als(path)))], the body of the script run
    as a program: the text it prints, or the exception that ends it. *)
Definition textconv `{os_path : OsPath} (log10 : spec_float -> spec_float)
  (read_file : string -> lib (list Byte.byte))
  (gzip_decompress : list Byte.byte -> lib (list Byte.byte))
  (decode_utf8 : list Byte.byte -> lib string)
  (fromstring : string -> lib Element) (path : string) : result string :=
  p ← parse_als log10 read_file gzip_decompress decode_utf8 fromstring path;
  Ok (format_output p).

(** ** Specification-side definitions and sample inputs *)

(** The scenes that [parse_scenes] reads: the [Scene] children of the
    first [Scenes] element. *)
Definition scene_elements (root : Element) : list Element :=
  match ET.find root ".//Scenes" with
  | Some scenes_elem => ET.findall scenes_elem "Scene"
  | None => []
  end.

(** The test of [parse_scenes] on the name of a scene. *)
Definition is_named_scene (name : string) : Prop :=
  name ≠ "" ∧ Str.startswith name "Scene " = false.

(** The children of the first [Tracks] element, which the track loop of
    [parse_als] visits. *)
Definition track_elements (root : Element) : list Element :=
  match ET.find root ".//Tracks" with
  | Some tracks_elem => ET.children tracks_elem
  | None => []
  end.

Definition KIND_TAGS : list string :=
  ["AudioTrack"; "MidiTrack"; "ReturnTrack"; "GroupTrack"].

Definition is_kind_tag (tag : string) : bool := existsb (String.eqb tag) KIND_TAGS.

(** The list of a kind in the dict [tracks]. *)
Definition tracks_of_kind (tag : string) (tracks : Tracks) : list Track :=
  if String.eqb tag "AudioTrack" then tracks_audio tracks
  else if String.eqb tag "MidiTrack" then tracks_midi tracks
  else if String.eqb tag "ReturnTrack" then tracks_return tracks
  else if String.eqb tag "GroupTrack" then tracks_group tracks
  else [].

(** The entries whose element has the tag [tag], in order. *)
Definition with_tag (tag : string) (tagged : list (string * Track)) : list Track :=
  map snd (List.filter (fun p => String.eqb (fst p) tag) tagged).

Definition total_tracks (tracks : Tracks) : nat :=
  (length (tracks_audio tracks) + length (tracks_midi tracks)
   + length (tracks_return tracks) + length (tracks_group tracks))%nat.

(** The line of one session clip in the text. *)
Definition session_clip_line (c : Clip) : string := "        - " +:+ format_clip c true.

(** The line that stands for the session clips beyond the third. *)
Definition more_in_slots_line (n : Z) : string :=
  "        ... and " +:+ Str.of_Z n +:+ " more in slots".

(** A MIDI track with five clips in its clip slots. *)
Definition five_clip_track : Element :=
  let slot name time :=
    mkElement "ClipSlot" []
      [mkElement "ClipSlot" []
         [mkElement "Value" []
            [mkElement "MidiClip" [("Time", time)]
               [mkElement "Name" [("Value", name)] []]]]] in
  mkElement "MidiTrack" [("Id", "3")]
    [mkElement "DeviceChain" []
       [mkElement "MainSequencer" []
          [mkElement "ClipSlotList" []
             [slot "a" "0"; slot "b" "4"; slot "c" "8"; slot "d" "12"; slot "e" "16"]]]].

(** A project whose only track is that one. *)
Definition five_clip_project : Element :=
  mkElement "Ableton" [("Creator", "Ableton Live 11.0")]
    [mkElement "LiveSet" [] [mkElement "Tracks" [] [five_clip_track]]].

(** A project without tracks whose master track holds the same five clip
    slots. *)
Definition five_clip_master_project : Element :=
  mkElement "Ableton" [("Creator", "Ableton Live 11.0")]
    [mkElement "LiveSet" []
       [mkElement "Tracks" [] [];
        mkElement "MasterTrack" [] (ET.children five_clip_track)]].

(** The track [t] with its clip lists emptied. *)
Definition without_clips (t : Track) : Track :=
  {| track_type := track_type t; track_name := track_name t;
     track_color := track_color t; track_devices := track_devices t;
     track_arrangement_clips := []; track_session_clips := [];
     track_mixer := track_mixer t; track_routing := track_routing t;
     track_state := track_state t |}.

(** The number of warp markers that [get_warp_info] counts. *)
Definition marker_count (clip : Element) : Z :=
  Z.of_nat (length (ET.findall clip ".//WarpMarkers/WarpMarker")).

(** The name of a warp mode: that of the table, or ["Unknown"]. *)
Definition warp_mode_name (mode : Z) : string := default "Unknown" (WARP_MODES !! mode).

(** A warped clip in [Complex] mode with three markers. *)
Definition three_marker_clip : Element :=
  mkElement "AudioClip" [("Time", "0")]
    [mkElement "WarpMode" [("Value", "4")] [];
     mkElement "WarpMarkers" []
       [mkElement "WarpMarker" [] []; mkElement "WarpMarker" [] [];
        mkElement "WarpMarker" [] []]].

(** An audio clip whose [WarpMode] is not a number; [IsWarped] is absent
    and so defaults to ["true"]. *)
Definition bad_warp_clip : Element :=
  mkElement "AudioClip" [("Time", "0")]
    [mkElement "Name" [("Value", "kick")] [];
     mkElement "WarpMode" [("Value", "abc")] []].

(** An audio track with that clip in a clip slot, and a project with
    that track. *)
Definition bad_warp_track : Element :=
  mkElement "AudioTrack" [("Id", "1")]
    [mkElement "DeviceChain" []
       [mkElement "MainSequencer" []
          [mkElement "ClipSlotList" []
             [mkElement "ClipSlot" [] [mkElement "Value" [] [bad_warp_clip]]]]]].

Definition bad_warp_project : Element :=
  mkElement "Ableton" [("Creator", "Ableton Live 11.0")]
    [mkElement "LiveSet" [] [mkElement "Tracks" [] [bad_warp_track]]].

(** A clip whose groove identifier is not a number: the extractor next to
    [get_warp_info] catches the failure. *)
Definition bad_groove_clip : Element :=
  mkElement "MidiClip" [("Time", "0")]
    [mkElement "GrooveSettings" [] [mkElement "GrooveId" [("Value", "abc")] []]].

(** Three values of [math.log10] as the C library returns them, for
    [1.0], [0.5] and [2.0]; the examples need no other. *)
Definition log10_samples (x : spec_float) : spec_float :=
  if F64.eqb x (F64.lit "1.0") then F64.zero
  else if F64.eqb x (F64.lit "0.5") then F64.lit "-0.3010299956639812"
  else if F64.eqb x (F64.lit "2.0") then F64.lit "0.3010299956639812"
  else S754_nan.

(** A project whose [Tracks] element has an audio track, a group track
    and a child of another tag. *)
Definition mixed_project : Element :=
  mkElement "Ableton" [("Creator", "Ableton Live 11.0")]
    [mkElement "LiveSet" []
       [mkElement "Tracks" []
          [mkElement "AudioTrack" [("Id", "1")]
             [mkElement "Name" [] [mkElement "EffectiveName" [("Value", "Drums")] []]];
           mkElement "GroupTrack" [("Id", "2")]
             [mkElement "Name" [] [mkElement "EffectiveName" [("Value", "Bus")] []]];
           mkElement "Foo" [] []]]].

(** A project whose [Tracks] element has a single child, of a tag that is
    none of the four kinds. *)
Definition foreign_child_project : Element :=
  mkElement "Ableton" [("Creator", "Ableton Live 11.0")]
    [mkElement "LiveSet" [] [mkElement "Tracks" [] [mkElement "Foo" [] []]]].

(** The generic parameter as the specification words it: a table of
    rules, each a predicate over the lower-cased name and the value with
    a rendering, of which the first that applies decides. *)
Record param_rule := {
  rule_applies : string -> spec_float -> bool;
  rule_render : spec_float -> string
}.

Definition name_has_any (name : string) (parts : list string) : bool :=
  existsb (fun part => Str.contains part name) parts.

Definition value_in_unit_interval (v : spec_float) : bool :=
  F64.leb (F64.of_Z 0) v && F64.leb v (F64.of_Z 1).

Definition rule_on_off : param_rule :=
  {| rule_applies name v :=
       (F64.eqb v (F64.of_Z 0) || F64.eqb v (F64.of_Z 1))
       && (negb (name_has_any name ["time"; "rate"])
           && name_has_any name ["on"; "sync"; "link"; "freeze"]);
     rule_render v := if F64.eqb v (F64.of_Z 1) then "on" else "off" |}.

Definition rule_percentage : param_rule :=
  {| rule_applies name v :=
       value_in_unit_interval v
       && name_has_any name
            ["wet"; "mix"; "amount"; "feedback"; "depth"; "gain"; "drive"; "resonance"];
     rule_render v := F64.format_f false 0 (F64.mul v (F64.of_Z 100)) +:+ "%" |}.

Definition rule_frequency : param_rule :=
  {| rule_applies name v := Str.contains "freq" name && negb (Str.contains "mod" name);
     rule_render v :=
       if F64.ltb v (F64.of_Z 1000) then F64.format_f false 0 v +:+ "Hz"
       else F64.format_f false 1 (F64.div v (F64.of_Z 1000)) +:+ "kHz" |}.

Definition rule_short_time : param_rule :=
  {| rule_applies name v :=
       name_has_any name ["timesec"; "attack"; "release"; "predelay"]
       && F64.ltb v (F64.of_Z 10);
     rule_render v :=
       if F64.ltb v (F64.of_Z 1)
       then F64.format_f false 0 (F64.mul v (F64.of_Z 1000)) +:+ "ms"
       else F64.format_f false 2 v +:+ "s" |}.

(** [v] is an exact integer. *)
Definition is_integer (v : spec_float) : bool :=
  match F64.to_int v with
  | Ok n => F64.eqb_Z v n
  | Raise _ => false
  end.

Definition rule_fallback : param_rule :=
  {| rule_applies _ _ := true;
     rule_render v :=
       if is_integer v then Str.of_Z (try_except (F64.to_int v) 0)
       else F64.format_f false 2 v |}.

Definition PARAM_RULES : list param_rule :=
  [rule_on_off; rule_percentage; rule_frequency; rule_short_time; rule_fallback].

Definition classify_param (name : string) (v : spec_float) : string :=
  match List.find (fun r => rule_applies r name v) PARAM_RULES with
  | Some r => rule_render r v
  | None => ""
  end.






(** [round(x)] of Python: the nearest integer, ties to even. *)
Definition round_half_even (x : spec_float) : result Z :=
  match x with
  | S754_zero _ => Ok 0
  | S754_finite s m e =>
      let n := F64.round_scaled m e 0 in Ok (if s then - n else n)
  | S754_infinity _ => Raise OverflowError
  | S754_nan => Raise ValueError
  end.

(** The pan as the specification words it, with
    [pct = round(|value| * 50)]. *)
Definition format_pan_rounded (pan_value : string) : string :=
  try_except
    (val ← F64.of_string pan_value;
     if F64.ltb (F64.abs val) (F64.lit "0.01") then Ok "C"
     else
       pct ← round_half_even (F64.mul (F64.abs val) (F64.of_Z 50));
       Ok ((if F64.ltb val (F64.of_Z 0) then "L" else "R") +:+ Str.of_Z pct))
    "C".

(** ** The script [generate-summary.py] *)

(** What [generate_summary] does to the outside: a line on standard
    output, a line on standard error, a file created empty by [open(path,
    'w')], a file written with its whole text. *)
Inductive event :=
  | Stdout (text : string)
  | Stderr (text : string)
  | Truncate (path : string)
  | WriteFile (path content : string).

Section GenerateSummary.

Context `{os_path : OsPath}.
Variable log10 : spec_float -> spec_float.
Variable read_file : string -> lib (list Byte.byte).
Variable gzip_decompress : list Byte.byte -> lib (list Byte.byte).
Variable decode_utf8 : list Byte.byte -> lib string.
Variable fromstring : string -> lib Element.

(** [os.path.exists]; [open(path, 'w')], which may fail; the [write] on
    the opened file, which may fail; [str(e)] of an exception. *)
Variable path_exists : string -> bool.
Variable open_write : string -> lib unit.
Variable write_text : string -> string -> lib unit.
Variable exn_str : exn -> string.

(** [generate_summary(als_path, output_path)]: the events, in order, and
    the value returned. *)
Definition generate_summary (als_path : string) (output_path : option string)
  : list event * bool :=
  if negb (path_exists als_path)
  then ([Stderr ("Error: File not found: " +:+ als_path)], false)
  else
    let output_path := default (als_path +:+ ".txt") output_path in
    let failed reason := Stderr ("Error processing " +:+ als_path +:+ ": " +:+ reason) in
    match parse_als log10 read_file gzip_decompress decode_utf8 fromstring als_path with
    | Raise e => ([failed (exn_str e)], false)
    | Ok project =>
        match open_write output_path with
        | Failed reason => ([failed reason], false)
        | Done _ =>
            match write_text output_path (format_output project) with
            | Failed reason => ([Truncate output_path; failed reason], false)
            | Done _ =>
                ([WriteFile output_path (format_output project);
                  Stdout ("Generated: " +:+ output_path)], true)
            end
        end
    end.

End GenerateSummary.

(** ** Sample inputs of the further properties *)

(** An audio effect rack: macro 0 keeps its default name, macro 3 is
    named; both controls and a plain parameter carry a manual value. *)
Definition rack_device : Element :=
  let manual v := [mkElement "Manual" [("Value", v)] []] in
  mkElement "AudioEffectGroupDevice" [("Id", "0")]
    [mkElement "On" [] (manual "true");
     mkElement "MacroDisplayNames.0" [("Value", "Macro 1")] [];
     mkElement "MacroDisplayNames.3" [("Value", "Filter")] [];
     mkElement "MacroControls.0" [] (manual "10");
     mkElement "MacroControls.3" [] (manual "64");
     mkElement "Gain" [] (manual "0.5")].

(** A MIDI track whose arrangement holds two clips, the later one first
    in the document. *)
Definition unsorted_track : Element :=
  let clip name time :=
    mkElement "MidiClip" [("Time", time)] [mkElement "Name" [("Value", name)] []] in
  mkElement "MidiTrack" [("Id", "4")]
    [mkElement "TrackGroupId" [("Value", "7")] [];
     mkElement "DeviceChain" []
       [mkElement "MainSequencer" []
          [mkElement "ClipTimeable" []
             [mkElement "ArrangerAutomation" []
                [mkElement "Events" [] [clip "verse" "16"; clip "intro" "0"]]]]]].

(** A project with that track inside the group track 7. *)
Definition grouped_project : Element :=
  mkElement "Ableton" [("Creator", "Ableton Live 11.0")]
    [mkElement "LiveSet" []
       [mkElement "Tracks" []
          [mkElement "GroupTrack" [("Id", "7")]
             [mkElement "Name" [] [mkElement "EffectiveName" [("Value", "Drums")] []]];
           unsorted_track]]].

(** An audio clip whose sample lies in a folder of the project. *)
Definition sample_clip : Element :=
  mkElement "AudioClip" [("Time", "0")]
    [mkElement "SampleRef" []
       [mkElement "FileRef" []
          [mkElement "RelativePath" [("Value", "Samples/Imported/kick.wav")] [];
           mkElement "Name" [("Value", "kick.wav")] []]]].

(** A mixer whose first send is silent. *)
Definition two_send_mixer : Mixer :=
  {| mixer_volume := "0dB"; mixer_pan := "C"; mixer_solo := false; mixer_muted := false;
     mixer_sends := ["-inf"; "-6.0dB"] |}.

(** What one child element of a device adds to the parameters: the name
    and the formatted value that the parameter loop stores for it, when
    it stores one. *)
Definition param_entry (macro_names : gmap Z string) (child : Element)
  : option (string * string) :=
  let tag := ET.tag child in
  if bool_decide (tag ∈ SKIP_PARAMS) || String.eqb tag "On" then None
  else if Str.startswith tag "MacroDisplayNames." then None
  else if Str.startswith tag "MacroControls." then
    match manual_value child with
    | Some v =>
        match macro_index tag with
        | Ok idx =>
            match macro_names !! idx with
            | Some param_name => Some (param_name, format_param v param_name)
            | None => None
            end
        | Raise _ => None
        end
    | None => None
    end
  else
    match manual_value child with
    | Some v => Some (tag, format_param v tag)
    | None => None
    end.

(** The names of [l] in the order of their first occurrence. *)
Definition first_occurrences (l : list string) : list string :=
  reverse (remove_dups (reverse l)).

(** A device whose two children are both named [Gain]. *)
Definition two_gain_device : Element :=
  mkElement "Eq8" [("Id", "1")]
    [mkElement "Gain" [] [mkElement "Manual" [("Value", "0.5")] []];
     mkElement "Gain" [] [mkElement "Manual" [("Value", "0.25")] []]].

(** A child element that the parameter loop reads as a plain parameter:
    its tag is not a skipped name, not [On] and not a macro element. *)
Definition is_plain_param_tag (tag : string) : Prop :=
  (tag ∉ SKIP_PARAMS) ∧ (tag ≠ "On")
  ∧ (Str.startswith tag "MacroDisplayNames." = false)
  ∧ (Str.startswith tag "MacroControls." = false).

(** The clip [b] does not start before the clip [a]. *)
Definition not_later (a b : Clip) : Prop :=
  F64.ltb (clip_time_float b) (clip_time_float a) = false.

(** The pitch of a key track that the loop of [parse_midi_notes] counts:
    it has a [MidiKey] whose [Value] is an integer (0 when absent) and at
    least one note event. *)
Definition counted_pitch (kt : Element) : option Z :=
  match ET.find kt "MidiKey" with
  | Some midi_key =>
      match (match ET.get_opt midi_key "Value" with
             | Some v => Str.to_int v
             | None => Ok 0
             end) with
      | Ok pitch =>
          match ET.findall kt "Notes/MidiNoteEvent" with
          | [] => None
          | _ :: _ => Some pitch
          end
      | Raise _ => None
      end
  | None => None
  end.

(** Whether [e] has a child element with tag [t]. *)
Definition has_child (e : Element) (t : string) : bool :=
  existsb (ET.has_tag t) (ET.children e).

(** The group tracks that [build_group_map] visits. *)
Definition group_track_elements (root : Element) : list Element :=
  ET.findall root ".//Tracks/GroupTrack".

(** A file event on a path other than [out]. *)
Definition touches_other (out : string) (ev : event) : bool :=
  match ev with
  | Truncate p | WriteFile p _ => negb (String.eqb p out)
  | _ => false
  end.

(** An event that is a message on standard error. *)
Definition is_stderr (ev : event) : bool :=
  match ev with Stderr _ => true | _ => false end.

(** The entry of send number [j] (from 0) in a track header. *)
Definition send_label (j : nat) (send : string) : string :=
  "Send " +:+ String (ascii_of_nat (65 + j)) EmptyString +:+ ": " +:+ send.

(** ** Properties *)

(** *** Lists *)

Lemma elem_of_enumerate {A} (l : list A) (k i : Z) (x : A) :
  (i, x) ∈ enumerate k l ↔ k <= i ∧ l !! Z.to_nat (i - k) = Some x.
Proof.
  revert k. induction l as [|y l IH]; intros k; simpl.
  - split; [intros H; inversion H | intros [_ H]; discriminate].
  - rewrite elem_of_cons, IH. split.
    + intros [Heq | [Hle Hl]].
      * inversion Heq; subst. split; [lia|]. by replace (k - k) with 0 by lia.
      * split; [lia|]. replace (Z.to_nat (i - k)) with (S (Z.to_nat (i - (k + 1)))) by lia.
        done.
    + intros [Hle Hl]. destruct (Z.eq_dec i k) as [->|Hne].
      * left. replace (k - k) with 0 in Hl by lia. simpl in Hl. congruence.
      * right. split; [lia|].
        replace (Z.to_nat (i - k)) with (S (Z.to_nat (i - (k + 1)))) in Hl by lia.
        done.
Qed.

Lemma enumerate_fst_increasing {A} (l : list A) (k : Z) :
  StronglySorted Z.lt (map fst (enumerate k l)) ∧
  Forall (fun i => k <= i) (map fst (enumerate k l)).
Proof.
  revert k. induction l as [|y l IH]; intros k; simpl.
  - split; constructor.
  - destruct (IH (k + 1)) as [Hs Hf]. split.
    + constructor; [done|]. eapply Forall_impl; [exact Hf|]. simpl. lia.
    + constructor; [lia|]. eapply Forall_impl; [exact Hf|]. simpl. lia.
Qed.

Lemma truthy_nonempty (s : string) : Str.truthy s = true ↔ s ≠ "".
Proof. destruct s; simpl; split; congruence. Qed.

Lemma parse_scenes_unfold (root : Element) :
  parse_scenes root =
  omap (fun '(i, scene) =>
          let name := get_attr (Some scene) "Name" "" in
          if Str.truthy name && negb (Str.startswith name "Scene ")
          then Some {| scene_index := i; scene_name := name |} else None)
       (enumerate 1 (scene_elements root)).
Proof.
  unfold parse_scenes, scene_elements. by destruct (ET.find root ".//Scenes").
Qed.

Lemma omap_index_sorted {A} (f : Z * A -> option Scene) (l : list (Z * A)) :
  (forall i x s, f (i, x) = Some s -> scene_index s = i) ->
  StronglySorted Z.lt (map fst l) ->
  StronglySorted Z.lt (map scene_index (omap f l)).
Proof.
  intros Hf. induction l as [|[i x] l IH]; simpl; intros Hs.
  - constructor.
  - inversion Hs as [|? ? Hs' Hall]; subst.
    destruct (f (i, x)) as [s|] eqn:E; simpl; [|by apply IH].
    constructor; [by apply IH|].
    apply Forall_forall. intros j Hj.
    apply list_elem_of_In, in_map_iff in Hj as [s' [<- Hs'in]].
    apply list_elem_of_In, list_elem_of_omap in Hs'in as [[i' x'] [Hin E']].
    rewrite (Hf _ _ _ E), (Hf _ _ _ E').
    rewrite Forall_forall in Hall. apply Hall.
    apply list_elem_of_In, in_map_iff. exists (i', x'). split; [done|].
    by apply list_elem_of_In.
Qed.

(** C10. [parse_scenes] keeps a scene exactly when its name is not empty
    and does not start with ["Scene "]; a kept scene carries its 1-based
    position among all the [Scene] elements, so the scenes left out do not
    renumber the later ones; the kept scenes stay in document order. *)
Theorem parse_scenes_named_with_position (root : Element) :
  (forall i name,
      {| scene_index := i; scene_name := name |} ∈ parse_scenes root ↔
      1 <= i ∧
      exists scene, scene_elements root !! Z.to_nat (i - 1) = Some scene ∧
                    name = get_attr (Some scene) "Name" "" ∧ is_named_scene name)
  ∧ StronglySorted Z.lt (map scene_index (parse_scenes root)).
Proof.
  rewrite parse_scenes_unfold. split.
  - intros i name. rewrite list_elem_of_omap. split.
    + intros [[j scene] [Hin Hf]]. cbv beta iota zeta in Hf.
      destruct (Str.truthy _ && negb _) eqn:E; [|discriminate].
      inversion Hf; subst. apply elem_of_enumerate in Hin as [Hle Hl].
      apply andb_true_iff in E as [Ht Hp]. apply negb_true_iff in Hp.
      split; [done|]. exists scene. split; [done|]. split; [done|].
      split; [by apply truthy_nonempty | done].
    + intros [Hle [scene [Hl [-> [Hne Hp]]]]]. exists (i, scene). split.
      * by apply elem_of_enumerate.
      * cbv beta iota zeta. apply truthy_nonempty in Hne. by rewrite Hne, Hp.
  - apply omap_index_sorted.
    + intros i x s. cbv beta iota zeta. destruct (_ && _); [|discriminate].
      by intros [= <-].
    + apply enumerate_fst_increasing.
Qed.

(** *** Track kinds *)

Section TrackKinds.

Context `{os_path : OsPath}.
Variable log10 : spec_float -> spec_float.

Lemma mapR_length {A B} (f : A -> result B) (l : list A) (ys : list B) :
  mapR f l = Ok ys -> length ys = length l.
Proof.
  revert ys. induction l as [|x l IH]; simpl; intros ys H.
  - by inversion H.
  - destruct (f x); [|discriminate]. destruct (mapR f l); [|discriminate].
    inversion H; subst. simpl. f_equal. by apply IH.
Qed.

Lemma add_track_kind (tag tag' : string) (info : Track) (tracks : Tracks) :
  In tag' KIND_TAGS ->
  tracks_of_kind tag' (add_track tag info tracks) =
  tracks_of_kind tag' tracks ++ (if String.eqb tag tag' then [info] else []).
Proof.
  intros Hin. unfold add_track.
  destruct (String.eqb_spec tag "AudioTrack") as [->|H1];
    [|destruct (String.eqb_spec tag "MidiTrack") as [->|H2];
      [|destruct (String.eqb_spec tag "ReturnTrack") as [->|H3];
        [|destruct (String.eqb_spec tag "GroupTrack") as [->|H4]]]];
    simpl in Hin;
    repeat (destruct Hin as [<-|Hin]; [try (simpl; reflexivity)|]); try done;
    unfold tracks_of_kind; simpl;
    repeat match goal with
      | |- context [String.eqb tag ?s] =>
          destruct (String.eqb_spec tag s); [congruence|]
      end; by rewrite ?app_nil_r.
Qed.

Lemma parse_tracks_kind (group_map : gmap string string) (children : list Element)
  (acc tracks : Tracks) :
  parse_tracks log10 group_map children acc = Ok tracks ->
  exists infos,
    mapR (fun t => parse_track log10 t false) children = Ok infos ∧
    forall tag, In tag KIND_TAGS ->
      tracks_of_kind tag tracks =
      tracks_of_kind tag acc ++
      with_tag tag (combine (map ET.tag children) (map (resolve_group group_map) infos)).
Proof.
  revert acc. induction children as [|t rest IH]; intros acc H; simpl in H.
  - inversion H; subst. exists []. split; [done|]. intros tag _.
    by rewrite app_nil_r.
  - destruct (parse_track log10 t false) as [info|e] eqn:E; [|discriminate].
    simpl in H. apply IH in H as [infos [Hm Hk]].
    exists (info :: infos). split.
    + simpl. by rewrite E, Hm.
    + intros tag Hin. rewrite (Hk tag Hin), (add_track_kind _ _ _ _ Hin).
      rewrite <- app_assoc. f_equal. unfold with_tag. simpl.
      by destruct (String.eqb (ET.tag t) tag).
Qed.

Lemma with_tag_total (tagged : list (string * Track)) :
  (length (with_tag "AudioTrack" tagged) + length (with_tag "MidiTrack" tagged)
   + length (with_tag "ReturnTrack" tagged) + length (with_tag "GroupTrack" tagged))%nat
  = length (List.filter (fun p => is_kind_tag (fst p)) tagged).
Proof.
  unfold with_tag. induction tagged as [|[tag info] l IH]; [done|].
  simpl. unfold is_kind_tag at 1. simpl.
  destruct (String.eqb_spec tag "AudioTrack") as [->|H1]; simpl; [lia|].
  destruct (String.eqb_spec tag "MidiTrack") as [->|H2]; simpl; [lia|].
  destruct (String.eqb_spec tag "ReturnTrack") as [->|H3]; simpl; [lia|].
  destruct (String.eqb_spec tag "GroupTrack") as [->|H4]; simpl; lia.
Qed.

End TrackKinds.

(** *** Session clips *)

Lemma format_session_shape (sess : list Clip) :
  format_session sess =
  match sess with
  | [] => []
  | _ =>
      ("      Session Slots (" +:+ Str.of_Z (Z.of_nat (length sess)) +:+ "):")
      :: map session_clip_line (firstn 3 sess)
      ++ (if (3 <? length sess)%nat
          then [more_in_slots_line (Z.of_nat (length sess) - 3)] else [])
  end.
Proof. reflexivity. Qed.

Lemma format_track_ends_with_session (i : Z) (t : Track) :
  exists before, format_track i t = before ++ format_session (track_session_clips t).
Proof.
  unfold format_track.
  match goal with
  | |- exists before, ?h :: ?d ++ ?a ++ ?s = _ => exists (h :: d ++ a)
  end.
  rewrite <- app_comm_cons, <- app_assoc. reflexivity.
Qed.

Lemma block_app_r {A} (mid x y : list A) :
  (exists before after, y = before ++ mid ++ after) ->
  exists before after, x ++ y = before ++ mid ++ after.
Proof. intros (b & a & ->). exists (x ++ b), a. by rewrite app_assoc. Qed.

Lemma block_app_l {A} (mid x y : list A) :
  (exists before after, x = before ++ mid ++ after) ->
  exists before after, x ++ y = before ++ mid ++ after.
Proof. intros (b & a & ->). exists b, (a ++ y). by rewrite <- !app_assoc. Qed.

Lemma format_tracks_block (l : list Track) (start : Z) (t : Track) :
  t ∈ l ->
  exists i before after,
    flat_map (fun '(i, t) => format_track i t) (enumerate start l)
    = before ++ format_track i t ++ after.
Proof.
  revert start. induction l as [|t' l IH]; intros start Hin; [inversion Hin|].
  cbn [enumerate flat_map]. apply elem_of_cons in Hin as [->|Hin].
  - by exists start, [], (flat_map (fun '(i, t) => format_track i t) (enumerate (start + 1) l)).
  - destruct (IH (start + 1) Hin) as (i & Hb). exists i. by apply block_app_r.
Qed.

Lemma format_track_list_block (label : string) (l : list Track) (t : Track) :
  t ∈ l ->
  exists i before after, format_track_list label l = before ++ format_track i t ++ after.
Proof.
  intros Hin. destruct (format_tracks_block l 1 t Hin) as (i & Hb). exists i.
  unfold format_track_list. destruct l as [|t' l]; [inversion Hin|].
  by apply block_app_r, block_app_l.
Qed.

(** The text of a project holds the lines of every track of its four
    lists. *)
Lemma format_project_block (p : Project) (kind : string) (t : Track) :
  In kind KIND_TAGS -> t ∈ tracks_of_kind kind (project_tracks p) ->
  exists i before after, format_project p = before ++ format_track i t ++ after.
Proof.
  intros Hkind Hin. unfold format_project. cbv zeta.
  destruct Hkind as [<-|[<-|[<-|[<-|[]]]]]; cbn [tracks_of_kind] in Hin.
  - apply (format_track_list_block "AUDIO") in Hin as (i & Hb). exists i.
    do 6 apply block_app_r. by apply block_app_l.
  - apply (format_track_list_block "MIDI") in Hin as (i & Hb). exists i.
    do 7 apply block_app_r. by apply block_app_l.
  - apply (format_track_list_block "RETURN") in Hin as (i & Hb). exists i.
    do 8 apply block_app_r. by apply block_app_l.
  - apply (format_track_list_block "GROUP") in Hin as (i & Hb). exists i.
    do 9 apply block_app_r. by apply block_app_l.
Qed.

Lemma resolve_group_session_clips (group_map : gmap string string) (info : Track) :
  track_session_clips (resolve_group group_map info) = track_session_clips info.
Proof.
  unfold resolve_group. destruct (state_group_id (track_state info)); [|done].
  by destruct (if Str.truthy _ then _ else _).
Qed.

Section SessionClips.

Context `{os_path : OsPath}.
Variable log10 : spec_float -> spec_float.

Lemma parse_track_session (track : Element) (is_master : bool) (info : Track) :
  parse_track log10 track is_master = Ok info ->
  mapR (parse_session_clip log10) (session_clip_elements track)
  = Ok (track_session_clips info).
Proof.
  unfold parse_track. intros H.
  destruct (mapR (parse_clip log10) _) as [arr|]; [|discriminate].
  cbn [mbind result_bind] in H.
  destruct (mapR (parse_session_clip log10) _) as [sess|]; [|discriminate].
  cbn [mbind result_bind] in H.
  apply (f_equal (fun r => match r with
                           | Ok t => track_session_clips t
                           | Raise _ => []
                           end)) in H.
  cbn beta iota in H. cbn [track_session_clips] in H. by rewrite H.
Qed.

(** C7, amended. A track that [parse_track] builds keeps one entry for
    every session clip element, in order, and so does the track that
    [parse_als] lists for it. When the track is in one of the four lists
    of a project, the text that [format_output] gives for the project
    holds the lines of the track, and these end with the session clips:
    at most the first three of them as clip lines, followed, when there
    are more than three, by the line ["... and N more in slots"] with
    [N] the total minus three. *)
Theorem session_clips_kept_in_model_capped_in_text
  (track : Element) (info : Track) (group_map : gmap string string)
  (p : Project) (kind : string) :
  parse_track log10 track false = Ok info ->
  In kind KIND_TAGS ->
  resolve_group group_map info ∈ tracks_of_kind kind (project_tracks p) ->
  let sess := track_session_clips info in
  let n := length (session_clip_elements track) in
  let block :=
    match n with
    | O => []
    | _ =>
        ("      Session Slots (" +:+ Str.of_Z (Z.of_nat n) +:+ "):")
        :: map session_clip_line (firstn 3 sess)
        ++ (if (3 <? n)%nat then [more_in_slots_line (Z.of_nat n - 3)] else [])
    end in
  mapR (parse_session_clip log10) (session_clip_elements track) = Ok sess
  ∧ length sess = n
  ∧ track_session_clips (resolve_group group_map info) = sess
  ∧ length (map session_clip_line (firstn 3 sess)) = Nat.min 3 n
  ∧ exists (i : Z) (head before after : list string),
      format_track i (resolve_group group_map info) = head ++ block
      ∧ format_output (ProjectResult p)
        = Str.join newline (before ++ (head ++ block) ++ after).
Proof.
  intros H Hkind Hin sess n block. pose proof (parse_track_session _ _ _ H) as Hm.
  pose proof (mapR_length _ _ _ Hm) as Hl. fold sess in Hm, Hl. fold n in Hl.
  split; [exact Hm|]. split; [exact Hl|].
  split; [apply resolve_group_session_clips|]. split.
  - rewrite length_map, length_firstn, Hl. reflexivity.
  - destruct (format_project_block p kind _ Hkind Hin) as (i & before & after & Hp).
    destruct (format_track_ends_with_session i (resolve_group group_map info))
      as [head Hh].
    assert (Hb : format_session (track_session_clips (resolve_group group_map info))
                 = block).
    { rewrite resolve_group_session_clips, format_session_shape. fold sess.
      subst block. rewrite <- Hl. by destruct sess. }
    rewrite Hb in Hh. exists i, head, before, after. split; [exact Hh|].
    cbn [format_output]. by rewrite Hp, Hh.
Qed.

End SessionClips.

(** A track with five session clips: three clip lines, then the count of
    the other two. *)
Example format_session_five (c1 c2 c3 c4 c5 : Clip) :
  format_session [c1; c2; c3; c4; c5] =
  ["      Session Slots (5):"; session_clip_line c1; session_clip_line c2;
   session_clip_line c3; "        ... and 2 more in slots"].
Proof. reflexivity. Qed.

Lemma session_clips_kept_in_model_capped_in_text_witness :
  match
    parse_als log10_samples (fun _ => Done []) (fun data => Done data)
      (fun _ => Done "<Ableton/>") (fun _ => Done five_clip_project) "set.als"
  with
  | Ok (ProjectResult p) =>
      exists before after,
        format_output (ProjectResult p) =
        Str.join newline
          (before ++
           ["      Session Slots (5):";
            "        - " +:+ dquote +:+ "a" +:+ dquote +:+ " @ 1.1.0 - ?";
            "        - " +:+ dquote +:+ "b" +:+ dquote +:+ " @ 2.1.0 - ?";
            "        - " +:+ dquote +:+ "c" +:+ dquote +:+ " @ 3.1.0 - ?";
            "        ... and 2 more in slots"] ++ after)
  | _ => False
  end.
Proof.
  destruct (parse_als log10_samples (fun _ => Done []) (fun data => Done data)
              (fun _ => Done "<Ableton/>") (fun _ => Done five_clip_project) "set.als")
    as [[|p]|e] eqn:E; [vm_compute in E; discriminate | | vm_compute in E; discriminate].
  destruct (parse_track log10_samples five_clip_track false) as [info|e] eqn:Et;
    [|vm_compute in Et; discriminate].
  destruct (session_clips_kept_in_model_capped_in_text log10_samples five_clip_track info
              (build_group_map five_clip_project) p "MidiTrack" Et)
    as (_ & _ & _ & _ & i & head & before & after & _ & Hout).
  - cbn. tauto.
  - vm_compute in E. injection E as <-. vm_compute in Et. injection Et as <-.
    apply list_elem_of_In. vm_compute. by left.
  - exists (before ++ head), after. rewrite Hout, <- !app_assoc. do 3 f_equal.
    vm_compute in Et. injection Et as <-. vm_compute. reflexivity.
Defined.

(** The text of a project does not depend on the clips of its master
    track: the master section shows the volume and the devices only. *)
Lemma format_output_ignores_master_clips (p : Project) :
  format_output (ProjectResult p)
  = format_output
      (ProjectResult
         {| project_creator := project_creator p; project_tempo := project_tempo p;
            project_time_sig := project_time_sig p; project_tracks := project_tracks p;
            project_locators := project_locators p;
            project_master := option_map without_clips (project_master p);
            project_scenes := project_scenes p;
            project_tempo_automated := project_tempo_automated p;
            project_info := project_info p |}).
Proof.
  cbn [format_output]. f_equal. unfold format_project.
  cbn [project_creator project_tempo project_time_sig project_tracks project_locators
       project_master project_scenes project_tempo_automated project_info].
  by destruct (project_master p).
Qed.

(** C7 as stated fails for the master track: its five session clips are
    kept in the model, and the text of the project has no line for any of
    them, nor a line that counts them. *)
Lemma master_session_clips_not_rendered :
  match
    parse_als log10_samples (fun _ => Done []) (fun data => Done data)
      (fun _ => Done "<Ableton/>") (fun _ => Done five_clip_master_project) "set.als"
  with
  | Ok (ProjectResult p) =>
      option_map (fun m => length (track_session_clips m)) (project_master p) = Some 5%nat
      ∧ format_output (ProjectResult p) =
        Str.join newline
          [Str.repeat "=" 60; "ABLETON PROJECT SUMMARY"; Str.repeat "=" 60;
           "Creator: Ableton Live 11.0"; "Tempo: 120 BPM"; "Time Signature: 4/4"; "";
           Str.repeat "-" 40; "MASTER:"; ""; Str.repeat "=" 60]
  | _ => False
  end.
Proof. vm_compute. by split. Qed.

(** *** Warp information *)

Lemma warp_mode_name_unknown (mode : Z) :
  mode ∉ [0; 1; 2; 3; 4; 6] -> warp_mode_name mode = "Unknown".
Proof.
  intros H. unfold warp_mode_name, WARP_MODES. simpl.
  rewrite !lookup_insert_ne; [by rewrite lookup_empty|..];
    intros <-; apply H; set_solver.
Qed.

(** C6. An audio clip that is not marked warped reports no warp
    information. A warped clip whose warp-mode index is [mode] reports
    nothing with no marker, the mode name alone with one or two markers,
    and the mode name with the marker count from three markers on; the
    name of an index outside the table is ["Unknown"]. *)
Theorem get_warp_info_by_marker_count (clip : Element) :
  (get_attr (Some clip) "IsWarped" "true" ≠ "true" -> get_warp_info clip = Ok None)
  ∧ (get_attr (Some clip) "IsWarped" "true" = "true" ->
     forall mode, Str.to_int (get_attr (Some clip) "WarpMode" "0") = Ok mode ->
       (marker_count clip = 0 -> get_warp_info clip = Ok None)
       ∧ (1 <= marker_count clip <= 2 ->
          get_warp_info clip =
          Ok (Some {| warp_mode := warp_mode_name mode; warp_markers := None |}))
       ∧ (3 <= marker_count clip ->
          get_warp_info clip =
          Ok (Some {| warp_mode := warp_mode_name mode;
                      warp_markers := Some (marker_count clip) |}))
       ∧ (mode ∉ [0; 1; 2; 3; 4; 6] -> warp_mode_name mode = "Unknown")).
Proof.
  unfold get_warp_info. fold (marker_count clip). split.
  - intros H. destruct (String.eqb_spec (get_attr (Some clip) "IsWarped" "true") "true");
      [done | reflexivity].
  - intros -> mode ->. cbn [String.eqb negb mbind result_bind]. fold (warp_mode_name mode).
    repeat split.
    + intros ->. reflexivity.
    + intros [H1 H2].
      destruct (Z.ltb_spec 2 (marker_count clip)); [lia|].
      destruct (Z.ltb_spec 0 (marker_count clip)); [done | lia].
    + intros H. by destruct (Z.ltb_spec 2 (marker_count clip)); [|lia].
    + apply warp_mode_name_unknown.
Qed.

Lemma get_warp_info_by_marker_count_witness :
  get_warp_info three_marker_clip =
  Ok (Some {| warp_mode := "Complex"; warp_markers := Some 3 |}).
Proof.
  refine (proj1 (proj2 (proj2
    (proj2 (get_warp_info_by_marker_count three_marker_clip) _ 4 _))) _);
    vm_compute; first [reflexivity | discriminate].
Defined.

(** C2. A [WarpMode] that is not a number is not replaced by a default:
    [get_warp_info] raises [ValueError], and so do [parse_clip],
    [parse_track] and the parsing of the whole project. The groove
    identifier, read inside a [try], falls back to its default. *)
Theorem non_numeric_warp_mode_aborts_file `{os_path : OsPath} (log10 : spec_float -> spec_float) :
  get_warp_info bad_warp_clip = Raise ValueError
  ∧ parse_clip log10 bad_warp_clip = Raise ValueError
  ∧ parse_track log10 bad_warp_track false = Raise ValueError
  ∧ parse_root log10 bad_warp_project = Raise ValueError
  ∧ has_groove bad_groove_clip = false.
Proof. repeat split; vm_compute; reflexivity. Qed.

(** *** Decoding *)

Lemma filter_fst_combine_length {A B} (P : A -> bool) (l1 : list A) (l2 : list B) :
  length l1 = length l2 ->
  length (List.filter (fun p => P (fst p)) (combine l1 l2)) = length (List.filter P l1).
Proof.
  revert l2. induction l1 as [|x l1 IH]; intros [|y l2] H; simpl in *; try done.
  destruct (P x); simpl; [f_equal|]; apply IH; lia.
Qed.

Section Decoder.

Context `{os_path : OsPath}.
Variable log10 : spec_float -> spec_float.
Variable read_file : string -> lib (list Byte.byte).
Variable gzip_decompress : list Byte.byte -> lib (list Byte.byte).
Variable decode_utf8 : list Byte.byte -> lib string.
Variable fromstring : string -> lib Element.

#[local] Abbreviation load_text := (load_text read_file gzip_decompress decode_utf8).
#[local] Abbreviation parse_als := (parse_als log10 read_file gzip_decompress decode_utf8 fromstring).
#[local] Abbreviation textconv := (textconv log10 read_file gzip_decompress decode_utf8 fromstring).

(** When reading, decompressing or decoding fails, [parse_als] returns
    the error dict with the reason, and the text is the single line
    [ERROR: <reason>]. *)
Lemma load_failure_is_error_result (path reason : string) :
  load_text path = Failed reason ->
  parse_als path = Ok (ErrorResult reason)
  ∧ textconv path = Ok ("ERROR: " +:+ reason).
Proof. intros H. unfold textconv, parse_als. by rewrite H. Qed.

(** C1. Bytes that decompress and decode to a text that is not a
    well-formed document do not give an error result: [ET.fromstring]
    is called after the [try] block, its [ParseError] leaves
    [parse_als], and [format_output] is never reached. *)
Theorem malformed_document_raises (path xml_data reason : string) :
  load_text path = Done xml_data ->
  fromstring xml_data = Failed reason ->
  parse_als path = Raise (ParseError reason)
  ∧ textconv path = Raise (ParseError reason)
  ∧ parse_als path ≠ Ok (ErrorResult reason).
Proof.
  intros H1 H2. unfold textconv, parse_als. rewrite H1, H2. by repeat split.
Qed.

Lemma parse_root_tracks (root : Element) (p : Project) :
  parse_root log10 root = Ok (ProjectResult p) ->
  parse_tracks log10 (build_group_map root) (track_elements root) no_tracks
  = Ok (project_tracks p).
Proof.
  unfold parse_root, track_elements. intros H.
  set (tracks := match ET.find root ".//Tracks" with
                 | Some tracks_elem =>
                     parse_tracks log10 (build_group_map root)
                       (ET.children tracks_elem) no_tracks
                 | None => Ok no_tracks
                 end) in H.
  assert (Ht : tracks = Ok (project_tracks p)).
  { destruct tracks as [tr|]; [|discriminate]. cbn [mbind result_bind] in H.
    destruct (parse_master_track log10 root); [|discriminate].
    cbn [mbind result_bind] in H.
    apply (f_equal (fun r => match r with
                             | Ok (ProjectResult q) => project_tracks q
                             | _ => no_tracks
                             end)) in H.
    cbn beta iota in H. cbn [project_tracks] in H. by rewrite H. }
  subst tracks. by destruct (ET.find root ".//Tracks").
Qed.

(** C9, amended. In a project that [parse_als] returns, the list of
    each of the four kinds holds the parsed children of the [Tracks]
    element that carry the tag of that kind, in document order, and
    nothing else: a child with one of the four tags is in the list of
    its tag only, and a child with another tag is in none. *)
Theorem parse_als_tracks_by_kind (path : string) (p : Project) :
  parse_als path = Ok (ProjectResult p) ->
  exists xml_data root infos,
    load_text path = Done xml_data
    ∧ fromstring xml_data = Done root
    ∧ mapR (fun t => parse_track log10 t false) (track_elements root) = Ok infos
    ∧ (forall tag, In tag KIND_TAGS ->
         tracks_of_kind tag (project_tracks p) =
         with_tag tag
           (combine (map ET.tag (track_elements root))
              (map (resolve_group (build_group_map root)) infos)))
    ∧ total_tracks (project_tracks p) =
      length (List.filter (fun t => is_kind_tag (ET.tag t)) (track_elements root)).
Proof.
  unfold parse_als. intros H.
  destruct (load_text path) as [xml_data|] eqn:E1; [|discriminate].
  destruct (fromstring xml_data) as [root|] eqn:E2; [|discriminate].
  apply parse_root_tracks, parse_tracks_kind in H as [infos [Hm Hk]].
  assert (Hk' : forall tag, In tag KIND_TAGS ->
            tracks_of_kind tag (project_tracks p) =
            with_tag tag
              (combine (map ET.tag (track_elements root))
                 (map (resolve_group (build_group_map root)) infos))).
  { intros tag Hin. rewrite (Hk tag Hin). simpl in Hin.
    by repeat (destruct Hin as [<-|Hin]; [reflexivity|]). }
  exists xml_data, root, infos. repeat split; try done.
  pose proof (mapR_length _ _ _ Hm) as Hl.
  transitivity
    (length (tracks_of_kind "AudioTrack" (project_tracks p))
     + length (tracks_of_kind "MidiTrack" (project_tracks p))
     + length (tracks_of_kind "ReturnTrack" (project_tracks p))
     + length (tracks_of_kind "GroupTrack" (project_tracks p)))%nat; [reflexivity|].
  rewrite !Hk' by (simpl; tauto).
  rewrite with_tag_total, filter_fst_combine_length by (by rewrite !length_map).
  clear. induction (track_elements root) as [|t l IH]; [done|].
  simpl. destruct (is_kind_tag (ET.tag t)); simpl; by rewrite IH.
Qed.

(** The part of [parse_als] that follows [ET.fromstring]. *)
Lemma parse_als_decoded (path xml_data : string) (root : Element) :
  load_text path = Done xml_data ->
  fromstring xml_data = Done root ->
  parse_als path = parse_root log10 root.
Proof. intros H1 H2. unfold parse_als. by rewrite H1, H2. Qed.

End Decoder.

Lemma malformed_document_raises_witness :
  parse_als log10_samples (fun _ => Done []) (fun data => Done data)
    (fun _ => Done "<Ableton>") (fun _ => Failed "no element found: line 1, column 9")
    "set.als"
  = Raise (ParseError "no element found: line 1, column 9").
Proof.
  refine (proj1 (malformed_document_raises log10_samples (fun _ => Done [])
                   (fun data => Done data) (fun _ => Done "<Ableton>")
                   (fun _ => Failed "no element found: line 1, column 9")
                   "set.als" "<Ableton>" "no element found: line 1, column 9" _ _));
    reflexivity.
Defined.

(** C9 as stated fails: the only child of [Tracks] is parsed, the project
    is returned, and none of the four lists holds an entry. *)
Lemma tracks_child_of_other_tag_dropped :
  match
    parse_als log10_samples (fun _ => Done []) (fun data => Done data)
      (fun _ => Done "<Ableton/>") (fun _ => Done foreign_child_project) "set.als"
  with
  | Ok (ProjectResult p) =>
      length (track_elements foreign_child_project) = 1%nat
      ∧ tracks_audio (project_tracks p) = [] ∧ tracks_midi (project_tracks p) = []
      ∧ tracks_return (project_tracks p) = [] ∧ tracks_group (project_tracks p) = []
  | _ => False
  end.
Proof. vm_compute. by repeat split. Qed.

Lemma parse_als_tracks_by_kind_witness :
  match
    parse_als log10_samples (fun _ => Done []) (fun data => Done data)
      (fun _ => Done "<Ableton/>") (fun _ => Done mixed_project) "set.als"
  with
  | Ok (ProjectResult p) =>
      total_tracks (project_tracks p) = 2%nat
      ∧ length (track_elements mixed_project) = 3%nat
  | _ => False
  end.
Proof.
  destruct (parse_als log10_samples (fun _ => Done []) (fun data => Done data)
              (fun _ => Done "<Ableton/>") (fun _ => Done mixed_project) "set.als")
    as [[msg|p]|e] eqn:E;
    [vm_compute in E; discriminate | | vm_compute in E; discriminate].
  destruct (parse_als_tracks_by_kind _ _ _ _ _ _ _ E)
    as (xml_data & root & infos & _ & H2 & _ & _ & Ht).
  injection H2 as <-. rewrite Ht. split; reflexivity.
Defined.

(** *** Formatters *)

Lemma SFcompare_antisym (x y : spec_float) :
  SFcompare y x = option_map CompOpp (SFcompare x y).
Proof.
  destruct x as [sx|sx| |sx mx ex], y as [sy|sy| |sy my ey]; simpl;
    try reflexivity; try (by destruct sx); try (by destruct sy);
    try (by destruct sx, sy).
  destruct sx, sy; simpl; try reflexivity;
    rewrite (Z.compare_antisym ey ex); destruct (ey ?= ex); simpl; try reflexivity;
    rewrite ?Pos.compare_cont_spec; simpl;
    rewrite (Pos.compare_antisym my mx); by destruct (my ?= mx)%positive.
Qed.

Lemma ltb_negb_leb (x y : spec_float) :
  F64.is_finite x = true -> F64.is_finite y = true ->
  F64.ltb x y = negb (F64.leb y x).
Proof.
  intros Hx Hy. unfold F64.ltb, F64.leb, SFltb, SFleb.
  rewrite (SFcompare_antisym x y).
  destruct (SFcompare x y) as [[]|] eqn:E; simpl; try reflexivity.
  destruct x, y; simpl in *; try discriminate.
Qed.

Lemma to_int_finite (v : spec_float) :
  F64.is_finite v = true -> exists n, F64.to_int v = Ok n.
Proof. destruct v; simpl; try discriminate; eauto. Qed.

(** Replaces every containment test and float comparison of the goal by a
    boolean variable and tries all their values. *)
Ltac bool_cases :=
  repeat match goal with
    | |- context [Str.contains ?p ?n] => generalize (Str.contains p n); intro
    | |- context [F64.eqb ?a ?b] => generalize (F64.eqb a b); intro
    | |- context [F64.leb ?a ?b] => generalize (F64.leb a b); intro
    | |- context [F64.ltb ?a ?b] => generalize (F64.ltb a b); intro
    end;
  repeat match goal with b : bool |- _ => destruct b end;
  reflexivity.

Lemma rule_on_off_applies (n : string) (v : spec_float) :
  rule_applies rule_on_off n v =
  (F64.eqb v (F64.of_Z 0) || F64.eqb v (F64.of_Z 1))
  && (negb (Str.contains "time" n) && negb (Str.contains "rate" n)
      && (Str.contains "on" n || Str.contains "sync" n || Str.contains "link" n
          || Str.contains "freeze" n)).
Proof.
  unfold rule_on_off, name_has_any. cbn [rule_applies existsb]. bool_cases.
Qed.

Lemma rule_percentage_applies (n : string) (v : spec_float) :
  rule_applies rule_percentage n v =
  F64.leb (F64.of_Z 0) v && F64.leb v (F64.of_Z 1)
  && (Str.contains "wet" n || Str.contains "mix" n || Str.contains "amount" n
      || Str.contains "feedback" n || Str.contains "depth" n || Str.contains "gain" n
      || Str.contains "drive" n || Str.contains "resonance" n).
Proof.
  unfold rule_percentage, name_has_any, value_in_unit_interval.
  cbn [rule_applies existsb]. bool_cases.
Qed.

Lemma rule_short_time_applies (n : string) (v : spec_float) :
  rule_applies rule_short_time n v =
  (Str.contains "timesec" n || Str.contains "attack" n || Str.contains "release" n
   || Str.contains "predelay" n) && F64.ltb v (F64.of_Z 10).
Proof.
  unfold rule_short_time, name_has_any. cbn [rule_applies existsb]. bool_cases.
Qed.

(** C3. For a value that parses to a finite number, [format_param] is
    the first rule of the table that applies to the lower-cased name and
    the value: on/off, percentage, frequency, short time, then the
    fallback. In particular a name with both [gain] and [freq] and a value
    in [[0, 1]] that the on/off rule does not take is a percentage. *)
Theorem format_param_first_matching_rule (value name : string) (v : spec_float) :
  F64.of_string value = Ok v ->
  F64.is_finite v = true ->
  format_param value name = classify_param (Str.lower name) v
  ∧ (value_in_unit_interval v = true ->
     Str.contains "gain" (Str.lower name) = true ->
     Str.contains "freq" (Str.lower name) = true ->
     rule_applies rule_on_off (Str.lower name) v = false ->
     format_param value name = F64.format_f false 0 (F64.mul v (F64.of_Z 100)) +:+ "%").
Proof.
  intros Hv Hfin.
  assert (Heq : format_param value name = classify_param (Str.lower name) v).
  { unfold format_param. rewrite Hv. cbn [mbind result_bind].
    unfold classify_param, PARAM_RULES. cbn [List.find].
    rewrite <- rule_on_off_applies, <- rule_percentage_applies, <- rule_short_time_applies.
    destruct (rule_applies rule_on_off (Str.lower name) v); [reflexivity|].
    destruct (rule_applies rule_percentage (Str.lower name) v); [reflexivity|].
    change (Str.contains "freq" (Str.lower name) && negb (Str.contains "mod" (Str.lower name)))
      with (rule_applies rule_frequency (Str.lower name) v).
    destruct (rule_applies rule_frequency (Str.lower name) v).
    { cbn [try_except rule_render rule_frequency].
      rewrite (ltb_negb_leb v (F64.of_Z 1000)) by (exact Hfin || reflexivity).
      by destruct (F64.leb (F64.of_Z 1000) v). }
    destruct (rule_applies rule_short_time (Str.lower name) v); [reflexivity|].
    cbn [rule_applies rule_fallback rule_render]. unfold is_integer.
    destruct (to_int_finite v Hfin) as [n Hn]. rewrite Hn.
    cbn [mbind result_bind try_except]. by destruct (F64.eqb_Z v n). }
  split; [exact Heq|].
  intros Hu Hg Hf Hoff. rewrite Heq. unfold classify_param, PARAM_RULES.
  cbn [List.find]. rewrite Hoff.
  assert (Hp : rule_applies rule_percentage (Str.lower name) v = true).
  { unfold rule_percentage, name_has_any. cbn [rule_applies existsb].
    rewrite Hu, Hg. cbn [andb]. by rewrite !orb_true_r. }
  by rewrite Hp.
Qed.

Example format_param_gain_freq : format_param "0.5" "GainFreq" = "50%".
Proof. vm_compute. reflexivity. Qed.

Example format_param_resonance_on : format_param "1" "Resonance" = "on".
Proof. vm_compute. reflexivity. Qed.

Lemma format_param_first_matching_rule_witness :
  format_param "0.5" "GainFreq" = "50%".
Proof.
  rewrite (proj2 (format_param_first_matching_rule "0.5" "GainFreq" (F64.lit "0.5")
                    ltac:(vm_compute; reflexivity) ltac:(vm_compute; reflexivity))
             ltac:(vm_compute; reflexivity) ltac:(vm_compute; reflexivity)
             ltac:(vm_compute; reflexivity) ltac:(vm_compute; reflexivity)).
  vm_compute. reflexivity.
Defined.

Section Decibel.

Variable log10 : spec_float -> spec_float.

(** C5. [format_db] gives ["-inf"] for a value that is zero or
    negative; otherwise, with [db = 20 * log10(value)], it gives ["0dB"]
    when [|db| < 0.1], and else the signed decibel value, as an integer
    when [db] is an exact integer and with one decimal when it is not.
    With the values that the C library returns for [log10(1.0)] and
    [log10(0.5)], [1.0] gives ["0dB"] and [0.5] gives ["-6.0dB"]. *)
Theorem format_db_cases (linear_value : string) (val : spec_float) :
  F64.of_string linear_value = Ok val ->
  let db := F64.mul (F64.of_Z 20) (log10 val) in
  (F64.leb val (F64.of_Z 0) = true -> format_db log10 linear_value = "-inf")
  ∧ (F64.leb val (F64.of_Z 0) = false ->
     F64.ltb (F64.abs db) (F64.lit "0.1") = true ->
     format_db log10 linear_value = "0dB")
  ∧ (F64.leb val (F64.of_Z 0) = false ->
     F64.ltb (F64.abs db) (F64.lit "0.1") = false ->
     forall n, F64.to_int db = Ok n ->
       format_db log10 linear_value =
       (if F64.eqb_Z db n then Str.of_Z_signed n else F64.format_f true 1 db) +:+ "dB")
  ∧ (log10 (F64.lit "1.0") = F64.zero -> format_db log10 "1.0" = "0dB")
  ∧ (log10 (F64.lit "0.5") = F64.lit "-0.3010299956639812" ->
     format_db log10 "0.5" = "-6.0dB")
  ∧ format_db log10 "0" = "-inf".
Proof.
  intros Hv db. split; [|split; [|split; [|split; [|split]]]].
  - unfold format_db, format_db_of. rewrite Hv. cbn [mbind result_bind].
    by intros ->.
  - unfold format_db, format_db_of. rewrite Hv. cbn [mbind result_bind]. fold db.
    by intros -> ->.
  - unfold format_db, format_db_of. rewrite Hv. cbn [mbind result_bind]. fold db.
    intros -> -> n ->. cbn [mbind result_bind try_except negb].
    by destruct (F64.eqb_Z db n).
  - intros H1. unfold format_db, format_db_of.
    replace (F64.of_string "1.0") with (Ok (F64.lit "1.0"))
      by (vm_compute; reflexivity).
    cbn [mbind result_bind]. rewrite H1. vm_compute. reflexivity.
  - intros H2. unfold format_db, format_db_of.
    replace (F64.of_string "0.5") with (Ok (F64.lit "0.5"))
      by (vm_compute; reflexivity).
    cbn [mbind result_bind]. rewrite H2. vm_compute. reflexivity.
  - vm_compute. reflexivity.
Qed.

End Decibel.

Lemma format_db_cases_witness : format_db log10_samples "0.5" = "-6.0dB".
Proof.
  refine (proj1 (proj2 (proj2 (proj2 (proj2
    (format_db_cases log10_samples "0.5" (F64.lit "0.5") _))))) _);
    vm_compute; reflexivity.
Defined.







(** *** Rounding never overflows on small operands *)

Lemma digits2_pos_size (p : positive) : digits2_pos p = Pos.size p.
Proof. induction p; simpl; congruence. Qed.

Lemma Zdigits2_log2 (p : positive) : Zdigits2 (Zpos p) = Z.log2 (Zpos p) + 1.
Proof. simpl Zdigits2. rewrite digits2_pos_size. destruct p; simpl; lia. Qed.

Lemma Zdigits2_nonneg (n : Z) : 0 <= Zdigits2 n.
Proof. destruct n; simpl; lia. Qed.

Lemma Zdigits2_mono (a b : Z) : 0 <= a <= b -> Zdigits2 a <= Zdigits2 b.
Proof.
  intros [Ha Hab]. destruct a as [|a|a]; [apply Zdigits2_nonneg| |lia].
  destruct b as [|b|b]; try lia. rewrite !Zdigits2_log2.
  pose proof (Z.log2_le_mono (Zpos a) (Zpos b) Hab). lia.
Qed.

Lemma Zdigits2_succ (a : Z) : 0 <= a -> Zdigits2 (a + 1) <= Zdigits2 a + 1.
Proof.
  intros Ha. destruct a as [|a|a]; [simpl; lia| |lia].
  replace (Zpos a + 1) with (Zpos (a + 1)) by lia. rewrite !Zdigits2_log2.
  pose proof (Z.log2_succ_le (Zpos a)).
  replace (Z.succ (Zpos a)) with (Zpos (a + 1)) in * by lia. lia.
Qed.

Lemma Zdigits2_mul (a b : positive) :
  Zdigits2 (Zpos (a * b)) <= Zdigits2 (Zpos a) + Zdigits2 (Zpos b).
Proof.
  rewrite !Zdigits2_log2.
  pose proof (Z.log2_mul_above (Zpos a) (Zpos b) ltac:(lia) ltac:(lia)).
  replace (Zpos a * Zpos b) with (Zpos (a * b)) in * by lia. lia.
Qed.

Lemma iter_pos_invariant {A} (P : A -> Prop) (f : A -> A) :
  (forall x, P x -> P (f x)) -> forall n x, P x -> P (SpecFloat.iter_pos f n x).
Proof.
  intros Hf. induction n as [n IH|n IH|]; intros x Hx; simpl; auto.
Qed.

Lemma shr_1_bounds (M : Z) (r : shr_record) :
  0 <= shr_m r <= M -> 0 <= shr_m (shr_1 r) <= M.
Proof.
  destruct r as [m rb sb]. simpl. intros H.
  destruct m as [|[p|p|]|[p|p|]]; simpl; lia.
Qed.

Lemma shr_bounds (r : shr_record) (e n : Z) :
  0 <= shr_m r ->
  0 <= shr_m (fst (shr r e n)) <= shr_m r ∧ snd (shr r e n) = Z.max e (e + n).
Proof.
  intros H. destruct n as [|p|p]; simpl; try lia.
  split; [|lia].
  apply (iter_pos_invariant (fun x => 0 <= shr_m x <= shr_m r)).
  - intros x. apply shr_1_bounds.
  - lia.
Qed.

Lemma shr_record_of_loc_m (m : Z) (l : location) : shr_m (shr_record_of_loc m l) = m.
Proof. by destruct l as [|[]]. Qed.

Lemma round_nearest_even_bounds (m : Z) (l : location) :
  m <= round_nearest_even m l <= m + 1.
Proof. destruct l as [|[]]; simpl; try lia. destruct (Z.even m); lia. Qed.

Lemma binary_round_aux_finite (sx : bool) (mx ex : Z) (lx : location) :
  0 <= mx -> ex <= 971 -> Zdigits2 mx <= 1000 -> Zdigits2 mx + ex <= 1023 ->
  2 * Zdigits2 mx + ex <= 1076 ->
  F64.is_finite (binary_round_aux F64.prec F64.emax sx mx ex lx) = true.
Proof.
  intros Hm He Hs Hd H2. unfold binary_round_aux, shr_fexp.
  set (n1 := fexp F64.prec F64.emax (Zdigits2 mx + ex) - ex).
  pose proof (shr_bounds (shr_record_of_loc mx lx) ex n1) as B1.
  rewrite shr_record_of_loc_m in B1. specialize (B1 Hm).
  destruct (shr (shr_record_of_loc mx lx) ex n1) as [r1 e1] eqn:E1.
  cbn [fst snd] in B1.
  destruct B1 as [Hr1 He1].
  set (m1 := round_nearest_even (shr_m r1) (loc_of_shr_record r1)).
  pose proof (round_nearest_even_bounds (shr_m r1) (loc_of_shr_record r1)) as Hm1.
  fold m1 in Hm1.
  set (n2 := fexp F64.prec F64.emax (Zdigits2 m1 + e1) - e1).
  pose proof (shr_bounds (shr_record_of_loc m1 loc_Exact) e1 n2) as B2.
  rewrite shr_record_of_loc_m in B2. specialize (B2 ltac:(lia)).
  destruct (shr (shr_record_of_loc m1 loc_Exact) e1 n2) as [r2 e2] eqn:E2.
  cbn [fst snd] in B2.
  destruct B2 as [Hr2 He2].
  assert (Hdm1 : Zdigits2 m1 <= Zdigits2 mx + 1).
  { etransitivity; [apply (Zdigits2_mono m1 (mx + 1)); lia|].
    apply Zdigits2_succ, Hm. }
  destruct (shr_m r2) as [|p|p] eqn:E; [reflexivity| |exfalso; clear -Hr2; lia].
  assert (Hle : e2 <= F64.emax - F64.prec).
  { subst e2 e1 n1 n2. unfold fexp, emin, F64.prec, F64.emax in *.
    pose proof (Zdigits2_nonneg mx). pose proof (Zdigits2_nonneg m1). lia. }
  apply Z.leb_le in Hle. by rewrite Hle.
Qed.

Lemma valid_binary_digits (s : bool) (m : positive) (e : Z) :
  valid_binary F64.prec F64.emax (S754_finite s m e) = true ->
  Zdigits2 (Zpos m) <= 53 ∧ e <= 971.
Proof.
  simpl. unfold bounded, canonical_mantissa, fexp, emin, F64.prec, F64.emax.
  intros H. apply andb_true_iff in H as [H1 H2].
  apply Z.eqb_eq in H1. apply Z.leb_le in H2. lia.
Qed.

(** The product of two floats is finite when the exponent of one is at
    most [-52], that is when its magnitude is below two, and the other
    has an exponent that is not positive. *)
Lemma mul_finite_small (x y : spec_float) :
  valid_binary F64.prec F64.emax x = true ->
  valid_binary F64.prec F64.emax y = true ->
  F64.is_finite x = true -> F64.is_finite y = true ->
  (forall s m e, x = S754_finite s m e -> e <= -52) ->
  (forall s m e, y = S754_finite s m e -> e <= 0) ->
  F64.is_finite (F64.mul x y) = true.
Proof.
  intros Vx Vy Fx Fy Hx Hy.
  destruct x as [sx|sx| |sx mx ex], y as [sy|sy| |sy my ey]; try discriminate;
    try reflexivity.
  unfold F64.mul, SFmul.
  apply valid_binary_digits in Vx as [Dx _], Vy as [Dy _].
  specialize (Hx _ _ _ eq_refl). specialize (Hy _ _ _ eq_refl).
  pose proof (Zdigits2_mul mx my).
  apply binary_round_aux_finite; lia.
Qed.

(** *** Pan *)

(** C4 as stated fails: [0.4375] is in [[-1, 1]] and [0.4375 * 50] is
    [21.875], which rounds to 22; [format_pan] writes 21. *)
Lemma format_pan_not_rounded :
  format_pan "0.4375" = "R21" ∧ format_pan_rounded "0.4375" = "R22".
Proof. split; vm_compute; reflexivity. Qed.

Lemma leb_one_exponent (s : bool) (m : positive) (e : Z) :
  F64.leb (F64.of_Z (-1)) (S754_finite s m e) = true ->
  F64.leb (S754_finite s m e) (F64.of_Z 1) = true ->
  e <= -52.
Proof.
  change (F64.of_Z (-1)) with (S754_finite true 4503599627370496 (-52)).
  change (F64.of_Z 1) with (S754_finite false 4503599627370496 (-52)).
  unfold F64.leb, SFleb, SFcompare. destruct s.
  - intros H _. revert H. destruct (Z.compare_spec (-52) e) as [Hc|Hc|Hc]; intros H;
      first [lia | discriminate].
  - intros _ H. revert H. destruct (Z.compare_spec e (-52)) as [Hc|Hc|Hc]; intros H;
      first [lia | discriminate].
Qed.

(** C4, amended. For a pan value in [[-1, 1]], [format_pan] gives ["C"]
    exactly when [|value| < 0.01]; otherwise it gives [L] for a negative
    value and [R] for a positive one, followed by [pct], the product
    [|value| * 50] truncated to an integer (not rounded). *)
Theorem format_pan_truncates (pan_value : string) (val : spec_float) :
  F64.of_string pan_value = Ok val ->
  valid_binary F64.prec F64.emax val = true ->
  F64.leb (F64.of_Z (-1)) val = true ->
  F64.leb val (F64.of_Z 1) = true ->
  exists pct,
    F64.to_int (F64.mul (F64.abs val) (F64.of_Z 50)) = Ok pct
    ∧ format_pan pan_value =
      (if F64.ltb (F64.abs val) (F64.lit "0.01") then "C"
       else (if F64.ltb val (F64.of_Z 0) then "L" else "R") +:+ Str.of_Z pct)
    ∧ (format_pan pan_value = "C" <-> F64.ltb (F64.abs val) (F64.lit "0.01") = true).
Proof.
  intros Hv Hvalid Hlo Hhi.
  assert (Hfin : F64.is_finite (F64.mul (F64.abs val) (F64.of_Z 50)) = true).
  { apply mul_finite_small.
    - by destruct val.
    - vm_compute. reflexivity.
    - destruct val as [|[]| |]; try reflexivity;
        first [vm_compute in Hhi; discriminate | vm_compute in Hlo; discriminate].
    - reflexivity.
    - intros s m e E. unfold F64.abs, SFabs in E.
      destruct val as [| | |s' m' e']; try discriminate.
      injection E as <- <- <-.
      by apply (leb_one_exponent s' m' e').
    - intros s m e E.
      change (F64.of_Z 50) with (S754_finite false 7036874417766400 (-47)) in E.
      injection E as <- <- <-. lia. }
  destruct (to_int_finite _ Hfin) as [pct Hpct]. exists pct.
  assert (Heq : format_pan pan_value =
                (if F64.ltb (F64.abs val) (F64.lit "0.01") then "C"
                 else (if F64.ltb val (F64.of_Z 0) then "L" else "R") +:+ Str.of_Z pct)).
  { unfold format_pan. rewrite Hv. cbn [mbind result_bind].
    destruct (F64.ltb (F64.abs val) (F64.lit "0.01")); [reflexivity|].
    rewrite Hpct. reflexivity. }
  split; [exact Hpct|]. split; [exact Heq|].
  rewrite Heq. destruct (F64.ltb (F64.abs val) (F64.lit "0.01")); [done|].
  split; [|discriminate].
  destruct (F64.ltb val (F64.of_Z 0)); cbn [String.append]; discriminate.
Qed.

Lemma format_pan_truncates_witness : format_pan "0.02" = "R1".
Proof.
  destruct (format_pan_truncates "0.02" (F64.lit "0.02")
              ltac:(vm_compute; reflexivity) ltac:(vm_compute; reflexivity)
              ltac:(vm_compute; reflexivity) ltac:(vm_compute; reflexivity))
    as (pct & Hpct & Heq & _).
  rewrite Heq. vm_compute in Hpct. injection Hpct as <-. vm_compute. reflexivity.
Defined.

Example format_pan_centre : format_pan "0.0" = "C".
Proof. vm_compute. reflexivity. Qed.

Example format_pan_left : format_pan "-0.5" = "L25".
Proof. vm_compute. reflexivity. Qed.

(** ** Further properties of the script *)

(** *** Device parameters *)

Lemma fold_left_invariant {A B} (P : A -> Prop) (f : A -> B -> A) (l : list B) (a : A) :
  P a -> (forall a x, x ∈ l -> P a -> P (f a x)) -> P (fold_left f l a).
Proof.
  revert a. induction l as [|x l IH]; intros a Ha Hf; simpl; [exact Ha|].
  apply IH.
  - apply Hf; [left | exact Ha].
  - intros a' y Hy. apply Hf. by right.
Qed.

Lemma dict_set_keys (k v : string) (d : list (string * string)) :
  map fst (dict_set k v d) = if bool_decide (k ∈ map fst d) then map fst d else map fst d ++ [k].
Proof.
  induction d as [|[k' v'] d IH]; simpl; [done|].
  destruct (String.eqb_spec k' k) as [->|Hne]; simpl.
  - rewrite bool_decide_eq_true_2; [done | left].
  - rewrite IH. destruct (bool_decide (k ∈ map fst d)) eqn:E.
    + apply bool_decide_eq_true_1 in E. rewrite bool_decide_eq_true_2; [done | by right].
    + apply bool_decide_eq_false_1 in E. rewrite bool_decide_eq_false_2; [done|].
      intros H. apply elem_of_cons in H as [H|H]; [congruence | done].
Qed.

Lemma dict_set_NoDup (k v : string) (d : list (string * string)) :
  NoDup (map fst d) -> NoDup (map fst (dict_set k v d)).
Proof.
  intros H. rewrite dict_set_keys. destruct (bool_decide (k ∈ map fst d)) eqn:E; [done|].
  apply bool_decide_eq_false_1 in E. apply NoDup_app. split; [done|].
  split; [|apply NoDup_singleton].
  intros x Hx Hk. apply list_elem_of_singleton in Hk as ->. done.
Qed.

Lemma dict_set_elem (k v : string) (d : list (string * string)) (k' v' : string) :
  (k', v') ∈ dict_set k v d -> (k', v') = (k, v) ∨ (k', v') ∈ d.
Proof.
  induction d as [|[k0 v0] d IH]; simpl.
  - intros H. apply list_elem_of_singleton in H. by left.
  - destruct (String.eqb_spec k0 k) as [->|Hne]; intros H;
      apply elem_of_cons in H as [H|H].
    + by left.
    + right. by right.
    + right. rewrite H. left.
    + destruct (IH H) as [?|?]; [by left | right; by right].
Qed.

Lemma dict_set_elem_iff (k v : string) (d : list (string * string)) (k' v' : string) :
  NoDup (map fst d) ->
  ((k', v') ∈ dict_set k v d <-> (k', v') = (k, v) ∨ (k' ≠ k ∧ (k', v') ∈ d)).
Proof.
  induction d as [|[k0 v0] d IH]; simpl; intros Hnd.
  - rewrite list_elem_of_singleton. split; [by left|]. intros [H|[_ H]]; [done|inversion H].
  - apply NoDup_cons in Hnd as [Hk0 Hnd].
    destruct (String.eqb_spec k0 k) as [->|Hne]; rewrite !elem_of_cons.
    + split.
      * intros [H|H]; [by left|]. right. split; [|by right].
        intros ->. apply Hk0. apply list_elem_of_fmap. by exists (k, v').
      * intros [H|[Hk [H|H]]]; [by left | congruence | by right].
    + rewrite (IH Hnd). split.
      * intros [H|[H|[Hk H]]].
        -- right. split; [congruence | by left].
        -- by left.
        -- right. split; [done | by right].
      * intros [H|[Hk [H|H]]].
        -- right. by left.
        -- by left.
        -- right. right. done.
Qed.

Lemma parse_params_entries (dev : Element) (macro_names : gmap Z string) :
  parse_params dev macro_names
  = fold_left (fun params e => dict_set e.1 e.2 params)
      (omap (param_entry macro_names) (ET.children dev)) [].
Proof.
  unfold parse_params. generalize (@nil (string * string)).
  induction (ET.children dev) as [|child cs IH]; intros acc; [done|].
  cbn [fold_left omap list_omap]. rewrite IH. clear IH.
  unfold param_entry at 2. cbv zeta.
  destruct (bool_decide (ET.tag child ∈ SKIP_PARAMS) || String.eqb (ET.tag child) "On");
    [done|].
  destruct (Str.startswith (ET.tag child) "MacroDisplayNames."); [done|].
  destruct (Str.startswith (ET.tag child) "MacroControls.").
  - destruct (manual_value child); [|done].
    destruct (macro_index (ET.tag child)); [|done].
    by destruct (macro_names !! _).
  - by destruct (manual_value child).
Qed.

Lemma dict_fold_spec (entries : list (string * string)) :
  let params := fold_left (fun params e => dict_set e.1 e.2 params) entries [] in
  NoDup (map fst params)
  ∧ map fst params = first_occurrences (map fst entries)
  ∧ (forall name value,
       (name, value) ∈ params <->
       exists before after,
         entries = before ++ (name, value) :: after ∧ name ∉ map fst after).
Proof.
  induction entries as [|[k v] entries IH] using rev_ind.
  - cbn. split; [constructor|]. split; [done|]. intros name value. split.
    + intros H. inversion H.
    + intros (before & after & H & _). by destruct before.
  - rewrite fold_left_app. cbn [fold_left fst snd]. cbv zeta in IH.
    set (params := fold_left _ entries []) in *.
    destruct IH as (Hnd & Hkeys & Hval). split; [by apply dict_set_NoDup|]. split.
    + rewrite dict_set_keys, Hkeys, map_app. cbn [map fst].
      unfold first_occurrences. rewrite reverse_snoc. cbn [remove_dups].
      assert (Hin : k ∈ reverse (remove_dups (reverse (map fst entries)))
                    <-> k ∈ reverse (map fst entries)).
      { by rewrite elem_of_reverse, elem_of_remove_dups. }
      destruct (decide_rel elem_of k (reverse (map fst entries))) as [Hk|Hk].
      * rewrite bool_decide_eq_true_2 by by apply Hin. done.
      * rewrite bool_decide_eq_false_2 by (by rewrite Hin). by rewrite reverse_cons.
    + intros name value. rewrite (dict_set_elem_iff _ _ _ _ _ Hnd), Hval. split.
      * intros [[= -> ->]|(Hne & before & after & -> & Hnot)].
        -- exists entries, []. split; [done|]. cbn. apply not_elem_of_nil.
        -- exists before, (after ++ [(k, v)]). split; [by rewrite <- app_assoc|].
           rewrite map_app. cbn. rewrite elem_of_app, list_elem_of_singleton.
           intros [?|?]; done.
      * intros (before & after & Heq & Hnot).
        destruct after as [|[k' v'] after _] using rev_ind.
        -- left. change (before ++ [(name, value)]) with (before ++ [(name, value)]) in Heq.
           apply app_inj_tail in Heq as [_ [= -> ->]]. done.
        -- right. rewrite app_comm_cons, app_assoc in Heq.
           apply app_inj_tail in Heq as [-> [= -> ->]].
           rewrite map_app, elem_of_app in Hnot. cbn in Hnot. split.
           ++ intros ->. apply Hnot. right. left.
           ++ exists before, after. split; [done|]. intros H. apply Hnot. by left.
Qed.

(** X1. The parameters of a device hold one entry for every name that
    some child element stores, in the order in which the names first
    occur, and the value shown under a name is the one stored by the last
    child with that name: a later child replaces the value of an earlier
    one and adds no second entry. *)
Theorem parse_params_later_value_replaces `{os_path : OsPath} (dev : Element) :
  let macro_names :=
    if Str.endswith (ET.tag dev) "GroupDevice" then get_macro_display_names dev else ∅ in
  let entries := omap (param_entry macro_names) (ET.children dev) in
  let params := device_params (parse_device dev) in
  NoDup (map fst params)
  ∧ map fst params = first_occurrences (map fst entries)
  ∧ (forall name value,
       (name, value) ∈ params <->
       exists before after,
         entries = before ++ (name, value) :: after ∧ name ∉ map fst after).
Proof.
  intros macro_names entries params.
  assert (Hp : params = fold_left (fun params e => dict_set e.1 e.2 params) entries []).
  { subst params. unfold parse_device. cbn [device_params]. apply parse_params_entries. }
  rewrite Hp. apply dict_fold_spec.
Qed.

Example parse_params_two_gains `{os_path : OsPath} :
  device_params (parse_device two_gain_device) = [("Gain", "25%")].
Proof. vm_compute. reflexivity. Qed.

(** X2. Every parameter that a device shows comes from a child element
    with a non-empty [Manual] value, formatted by [format_param] under
    the name shown: either a child read as a plain parameter, under its
    tag, or a [MacroControls.N] child whose index [N] has a custom name
    in the macro names, under that name. *)
Theorem parse_params_origin (dev : Element) (macro_names : gmap Z string)
  (name value : string) :
  (name, value) ∈ parse_params dev macro_names ->
  exists child raw,
    child ∈ ET.children dev
    ∧ manual_value child = Some raw
    ∧ value = format_param raw name
    ∧ ((ET.tag child = name ∧ is_plain_param_tag name)
       ∨ (Str.startswith (ET.tag child) "MacroControls." = true
          ∧ exists idx, macro_index (ET.tag child) = Ok idx
                        ∧ macro_names !! idx = Some name)).
Proof.
  unfold parse_params.
  apply (fold_left_invariant
           (fun params =>
              (name, value) ∈ params ->
              exists child raw,
                child ∈ ET.children dev
                ∧ manual_value child = Some raw
                ∧ value = format_param raw name
                ∧ ((ET.tag child = name ∧ is_plain_param_tag name)
                   ∨ (Str.startswith (ET.tag child) "MacroControls." = true
                      ∧ exists idx, macro_index (ET.tag child) = Ok idx
                                    ∧ macro_names !! idx = Some name)))).
  - intros H. inversion H.
  - intros params child Hin IH.
    destruct (bool_decide (ET.tag child ∈ SKIP_PARAMS)) eqn:Eskip; [exact IH|].
    destruct (String.eqb_spec (ET.tag child) "On") as [EOn|EOn]; [exact IH|].
    cbn [orb].
    destruct (Str.startswith (ET.tag child) "MacroDisplayNames.") eqn:Edn; [exact IH|].
    destruct (Str.startswith (ET.tag child) "MacroControls.") eqn:Emc.
    + destruct (manual_value child) as [raw|] eqn:Em; [|exact IH].
      destruct (macro_index (ET.tag child)) as [idx|] eqn:Ei; [|exact IH].
      destruct (macro_names !! idx) as [param_name|] eqn:En; [|exact IH].
      intros H. apply dict_set_elem in H as [H|H]; [|by apply IH].
      injection H as -> ->. exists child, raw. repeat split; try done.
      right. split; [done|]. by exists idx.
    + destruct (manual_value child) as [raw|] eqn:Em; [|exact IH].
      intros H. apply dict_set_elem in H as [H|H]; [|by apply IH].
      injection H as -> ->. exists child, raw. repeat split; try done.
      left. split; [done|]. apply bool_decide_eq_false_1 in Eskip.
      by repeat split.
Qed.

(** X3. The macro names of a rack never hold an empty name or a default
    name of the form [Macro N]: every name kept is the [Value] of a
    [MacroDisplayNames.N] child, with [N] its key. *)
Theorem macro_display_names_custom (dev : Element) (idx : Z) (name : string) :
  get_macro_display_names dev !! idx = Some name ->
  name ≠ "" ∧ is_default_macro_name name = false
  ∧ exists child,
      child ∈ ET.children dev
      ∧ Str.startswith (ET.tag child) "MacroDisplayNames." = true
      ∧ macro_index (ET.tag child) = Ok idx
      ∧ ET.get child "Value" "" = name.
Proof.
  unfold get_macro_display_names.
  apply (fold_left_invariant
           (fun names : gmap Z string =>
              names !! idx = Some name ->
              name ≠ "" ∧ is_default_macro_name name = false
              ∧ exists child,
                  child ∈ ET.children dev
                  ∧ Str.startswith (ET.tag child) "MacroDisplayNames." = true
                  ∧ macro_index (ET.tag child) = Ok idx
                  ∧ ET.get child "Value" "" = name)).
  - intros H. by rewrite lookup_empty in H.
  - intros names child Hin IH.
    destruct (Str.startswith (ET.tag child) "MacroDisplayNames.") eqn:Ep; [|exact IH].
    destruct (macro_index (ET.tag child)) as [i|] eqn:Ei; [|exact IH].
    cbv zeta.
    destruct (Str.truthy (ET.get child "Value" "")) eqn:Et; [|exact IH].
    destruct (is_default_macro_name (ET.get child "Value" "")) eqn:Ed; [exact IH|].
    cbn [negb andb]. intros H.
    destruct (decide (i = idx)) as [->|Hne].
    + rewrite lookup_insert_eq in H. injection H as <-.
      split; [by apply truthy_nonempty|]. split; [done|]. by exists child.
    + rewrite lookup_insert_ne in H by done. by apply IH.
Qed.

(** *** Which failures leave the extractors *)

Lemma to_int_raises (s : string) (e : exn) : Str.to_int s = Raise e -> e = ValueError.
Proof.
  unfold Str.to_int. destruct (Str.read_sign _) as [neg body].
  destruct (Str.read_digits body) as [[|d ds] [|c r]]; congruence.
Qed.

Lemma of_string_raises (s : string) (e : exn) : F64.of_string s = Raise e -> e = ValueError.
Proof.
  unfold F64.of_string. destruct (Str.read_sign _) as [neg body].
  destruct (_ || _); [discriminate|]. destruct (String.eqb _ "nan"); [discriminate|].
  destruct (Str.read_digits body) as [ip r1].
  destruct (match r1 with String "." r => Str.read_digits r | _ => ([], r1) end) as [fp r2].
  destruct (ip ++ fp) as [|d ds]; [congruence|].
  destruct r2 as [|c r3]; [discriminate|].
  destruct (F64.is_exp_char c); [|congruence].
  destruct (Str.read_sign r3) as [eneg r4].
  destruct (Str.read_digits r4) as [[|x xs] [|c' r']]; congruence.
Qed.

Lemma get_warp_info_raises (clip : Element) (e : exn) :
  get_warp_info clip = Raise e ->
  e = ValueError
  ∧ get_attr (Some clip) "IsWarped" "true" = "true"
  ∧ Str.to_int (get_attr (Some clip) "WarpMode" "0") = Raise ValueError.
Proof.
  unfold get_warp_info.
  destruct (String.eqb_spec (get_attr (Some clip) "IsWarped" "true") "true") as [Hw|Hw];
    cbn [negb]; [|discriminate].
  destruct (Str.to_int (get_attr (Some clip) "WarpMode" "0")) as [mode|e'] eqn:E.
  - cbn [mbind result_bind]. destruct (2 <? _); [discriminate|].
    destruct (0 <? _); discriminate.
  - cbn [mbind result_bind]. intros [= <-].
    pose proof (to_int_raises _ _ E) as ->. done.
Qed.

Section ClipFailures.

Context `{os_path : OsPath}.
Variable log10 : spec_float -> spec_float.

Lemma parse_clip_unfold (clip : Element) :
  parse_clip log10 clip =
  match F64.of_string (ET.get clip "Time" "0") with
  | Raise e => Raise e
  | Ok time_float =>
      match (if String.eqb (ET.tag clip) "AudioClip" then get_warp_info clip else Ok None) with
      | Raise e => Raise e
      | Ok warp =>
          Ok {| clip_name := get_attr (Some clip) "Name" "unnamed";
                clip_start := format_beats (ET.get clip "Time" "0");
                clip_end := format_beats (get_attr (Some clip) "CurrentEnd" "?");
                clip_looped := String.eqb (get_attr (Some clip) "Loop/LoopOn" "false") "true";
                clip_muted := String.eqb (get_attr (Some clip) "Disabled" "false") "true";
                clip_time_float := time_float;
                clip_offset :=
                  try_except
                    (ls ← F64.of_string (get_attr (Some clip) "Loop/LoopStart" "0");
                     sr ← F64.of_string (get_attr (Some clip) "Loop/StartRelative" "0");
                     if negb (F64.eqb sr (F64.of_Z 0)) || negb (F64.eqb ls (F64.of_Z 0))
                     then Ok (Some (format_beats_float (F64.add ls sr))) else Ok None)
                    None;
                clip_audio_file :=
                  if String.eqb (ET.tag clip) "AudioClip" then
                    match get_audio_ref clip with
                    | Some r => if Str.truthy r then Some r else None
                    | None => None
                    end
                  else None;
                clip_adjustments :=
                  if String.eqb (ET.tag clip) "AudioClip"
                  then get_clip_adjustments log10 clip else [];
                clip_fades := if String.eqb (ET.tag clip) "AudioClip" then get_fades clip else [];
                clip_warp := warp;
                clip_midi_notes :=
                  if String.eqb (ET.tag clip) "AudioClip" then None else parse_midi_notes clip;
                clip_groove := has_groove clip;
                clip_launch := None |}
      end
  end.
Proof. reflexivity. Qed.

Lemma parse_clip_raise (clip : Element) (e : exn) :
  parse_clip log10 clip = Raise e -> e = ValueError.
Proof.
  rewrite parse_clip_unfold.
  destruct (F64.of_string (ET.get clip "Time" "0")) as [t|e0] eqn:Et.
  - destruct (String.eqb (ET.tag clip) "AudioClip").
    + destruct (get_warp_info clip) as [w|e1] eqn:Ew; [discriminate|].
      apply get_warp_info_raises in Ew as (-> & _). by intros [= <-].
    + discriminate.
  - intros [= <-]. by apply of_string_raises in Et.
Qed.

(** X4. [parse_clip] returns a clip exactly when [float()] accepts the
    [Time] attribute (or it is absent) and, for an audio clip marked
    warped, [int()] accepts the warp mode; otherwise it raises
    [ValueError], and nothing else. No other field can make it fail. *)
Theorem parse_clip_succeeds_iff (clip : Element) :
  ((exists c, parse_clip log10 clip = Ok c) <->
   (exists t, F64.of_string (ET.get clip "Time" "0") = Ok t)
   ∧ (ET.tag clip = "AudioClip" ->
      get_attr (Some clip) "IsWarped" "true" = "true" ->
      exists mode, Str.to_int (get_attr (Some clip) "WarpMode" "0") = Ok mode))
  ∧ (forall e, parse_clip log10 clip = Raise e -> e = ValueError).
Proof.
  rewrite parse_clip_unfold.
  destruct (F64.of_string (ET.get clip "Time" "0")) as [t|e0] eqn:Et.
  - destruct (String.eqb_spec (ET.tag clip) "AudioClip") as [Ha|Ha].
    + destruct (get_warp_info clip) as [w|e1] eqn:Ew.
      * split; [|discriminate]. split; [|eauto].
        intros _. split; [eauto|]. intros _ Hw.
        destruct (Str.to_int (get_attr (Some clip) "WarpMode" "0")) as [m|e2] eqn:Em;
          [eauto|].
        unfold get_warp_info in Ew. rewrite Hw, Em in Ew. discriminate.
      * apply get_warp_info_raises in Ew as (-> & Hw & Hm). split.
        -- split; [intros [c Hc]; discriminate|].
           intros [_ H]. destruct (H Ha Hw) as [m Hm']. congruence.
        -- by intros e [= <-].
    + split; [|discriminate]. split; [|eauto].
      intros _. split; [eauto|]. intros Htag. done.
  - split.
    + split; [intros [c Hc]; discriminate|]. intros [[t Ht] _]. discriminate.
    + intros e [= <-]. by apply of_string_raises in Et.
Qed.

End ClipFailures.

Lemma mapR_ok_iff {A B} (f : A -> result B) (l : list A) :
  (exists ys, mapR f l = Ok ys) <-> (forall x, x ∈ l -> exists y, f x = Ok y).
Proof.
  induction l as [|x l IH]; simpl.
  - split; [intros _ x H; inversion H | eauto].
  - split.
    + intros [ys H] x' Hx'. destruct (f x) as [y|] eqn:E; [|discriminate].
      destruct (mapR f l) as [ys'|] eqn:E'; [|discriminate].
      apply elem_of_cons in Hx' as [->|Hx']; [eauto|].
      apply IH; eauto.
    + intros H. destruct (H x) as [y ->]; [left|].
      destruct (proj2 IH) as [ys ->]; [|eauto].
      intros x' Hx'. apply H. by right.
Qed.

Lemma mapR_raise {A B} (f : A -> result B) (l : list A) (e : exn) :
  mapR f l = Raise e -> exists x, x ∈ l ∧ f x = Raise e.
Proof.
  induction l as [|x l IH]; simpl; [discriminate|].
  destruct (f x) as [y|e'] eqn:E.
  - destruct (mapR f l) as [ys|e''] eqn:E'; [discriminate|].
    intros [= <-]. destruct (IH eq_refl) as [x' [Hx' Hf]].
    exists x'. split; [by right | done].
  - intros [= <-]. exists x. split; [left | done].
Qed.

Section TrackFailures.

Context `{os_path : OsPath}.
Variable log10 : spec_float -> spec_float.

Lemma parse_session_clip_ok (clip : Element) :
  (exists c, parse_session_clip log10 clip = Ok c) <-> (exists c, parse_clip log10 clip = Ok c).
Proof.
  unfold parse_session_clip. destruct (parse_clip log10 clip) as [c|e].
  - cbn [mbind result_bind]. split; eauto.
  - cbn [mbind result_bind]. split; intros [c H]; discriminate.
Qed.

Lemma parse_session_clip_raise (clip : Element) (e : exn) :
  parse_session_clip log10 clip = Raise e -> parse_clip log10 clip = Raise e.
Proof.
  unfold parse_session_clip. destruct (parse_clip log10 clip) as [c|e'];
    cbn [mbind result_bind]; congruence.
Qed.


(** X5. [parse_track] returns a track exactly when [parse_clip] accepts
    every arrangement clip and every session clip of the track; the name,
    colour, mixer, routing, state and devices never make it fail, and the
    only exception it raises is [ValueError]. *)
Theorem parse_track_succeeds_iff (track : Element) (is_master : bool) :
  ((exists info, parse_track log10 track is_master = Ok info) <->
   (forall clip,
      clip ∈ arrangement_clip_elements track ++ session_clip_elements track ->
      exists c, parse_clip log10 clip = Ok c))
  ∧ (forall e, parse_track log10 track is_master = Raise e -> e = ValueError).
Proof.
  unfold parse_track.
  destruct (mapR (parse_clip log10) (arrangement_clip_elements track)) as [arr|e1] eqn:Ea;
    cbn [mbind result_bind].
  - destruct (mapR (parse_session_clip log10) (session_clip_elements track))
      as [sess|e2] eqn:Es; cbn [mbind result_bind].
    + split; [|discriminate]. split; [|eauto].
      intros _ clip Hin. apply elem_of_app in Hin as [Hin|Hin].
      * apply (proj1 (mapR_ok_iff _ _) (ex_intro _ arr Ea)), Hin.
      * apply parse_session_clip_ok.
        apply (proj1 (mapR_ok_iff _ _) (ex_intro _ sess Es)), Hin.
    + apply mapR_raise in Es as [clip [Hin Hr]].
      apply parse_session_clip_raise in Hr.
      pose proof (parse_clip_raise log10 clip _ Hr) as ->.
      split; [|by intros e [= <-]].
      split; [intros [info H]; discriminate|].
      intros H. destruct (H clip) as [c Hc]; [apply elem_of_app; by right|]. congruence.
  - apply mapR_raise in Ea as [clip [Hin Hr]].
    pose proof (parse_clip_raise log10 clip _ Hr) as ->.
    split; [|by intros e [= <-]].
    split; [intros [info H]; discriminate|].
    intros H. destruct (H clip) as [c Hc]; [apply elem_of_app; by left|]. congruence.
Qed.



End TrackFailures.

Section AlsFailures.

Context `{os_path : OsPath}.
Variable log10 : spec_float -> spec_float.
Variable read_file : string -> lib (list Byte.byte).
Variable gzip_decompress : list Byte.byte -> lib (list Byte.byte).
Variable decode_utf8 : list Byte.byte -> lib string.
Variable fromstring : string -> lib Element.


End AlsFailures.

(** *** The order of the arrangement clips *)

Lemma ltb_asym (x y : spec_float) : F64.ltb x y = true -> F64.ltb y x = false.
Proof.
  unfold F64.ltb, SFltb. rewrite (SFcompare_antisym x y).
  by destruct (SFcompare x y) as [[]|].
Qed.

Lemma insert_by_time_perm (c : Clip) (l : list Clip) : insert_by_time c l ≡ₚ c :: l.
Proof.
  induction l as [|d l IH]; simpl; [done|].
  destruct (F64.ltb _ _); [done|]. rewrite IH. apply Permutation_swap.
Qed.

Lemma sort_by_time_perm_acc (l acc : list Clip) :
  fold_left (fun sorted c => insert_by_time c sorted) l acc ≡ₚ acc ++ l.
Proof.
  revert acc. induction l as [|c l IH]; intros acc; simpl.
  - by rewrite app_nil_r.
  - rewrite IH, insert_by_time_perm. simpl. apply Permutation_middle.
Qed.

Lemma insert_by_time_hd (c : Clip) (l : list Clip) (a : Clip) :
  not_later a c -> HdRel not_later a l -> HdRel not_later a (insert_by_time c l).
Proof.
  intros Hc Hl. destruct l as [|d l]; simpl; [by constructor|].
  destruct (F64.ltb _ _); constructor; [done|]. by inversion Hl.
Qed.

Lemma insert_by_time_sorted (c : Clip) (l : list Clip) :
  Sorted not_later l -> Sorted not_later (insert_by_time c l).
Proof.
  induction 1 as [|d l Hs IH Hd]; simpl.
  - by repeat constructor.
  - destruct (F64.ltb (clip_time_float c) (clip_time_float d)) eqn:E.
    + constructor; [by constructor|]. constructor. by apply ltb_asym.
    + constructor; [done|]. by apply insert_by_time_hd.
Qed.

Lemma sort_by_time_sorted_acc (l acc : list Clip) :
  Sorted not_later acc ->
  Sorted not_later (fold_left (fun sorted c => insert_by_time c sorted) l acc).
Proof.
  revert acc. induction l as [|c l IH]; intros acc H; simpl; [done|].
  by apply IH, insert_by_time_sorted.
Qed.

Section ArrangementOrder.

Context `{os_path : OsPath}.
Variable log10 : spec_float -> spec_float.

(** X7. The arrangement clips of a parsed track are the clips that
    [parse_clip] made of the track's arrangement clip elements, every one
    of them once, in an order where no clip starts before the clip listed
    ahead of it (start times compared as floats, none of them NaN). *)
Theorem arrangement_clips_sorted (track : Element) (is_master : bool) (info : Track) :
  parse_track log10 track is_master = Ok info ->
  exists parsed,
    mapR (parse_clip log10) (arrangement_clip_elements track) = Ok parsed
    ∧ track_arrangement_clips info ≡ₚ parsed
    ∧ (Forall (fun c => clip_time_float c ≠ S754_nan) parsed ->
       Sorted not_later (track_arrangement_clips info)).
Proof.
  unfold parse_track.
  destruct (mapR (parse_clip log10) (arrangement_clip_elements track)) as [arr|] eqn:Ea;
    cbn [mbind result_bind]; [|discriminate].
  destruct (mapR (parse_session_clip log10) (session_clip_elements track)) as [sess|];
    cbn [mbind result_bind]; [|discriminate].
  intros H.
  apply (f_equal (fun r => match r with
                           | Ok t => track_arrangement_clips t
                           | Raise _ => []
                           end)) in H.
  cbn beta iota in H. cbn [track_arrangement_clips] in H. rewrite <- H.
  exists arr. split; [done|]. split.
  - unfold sort_by_time. by rewrite sort_by_time_perm_acc.
  - intros _. apply sort_by_time_sorted_acc. constructor.
Qed.

End ArrangementOrder.

(** *** MIDI note summary *)

Lemma list_min_le (x : Z) (l : list Z) : list_min x l <= x.
Proof.
  unfold list_min. revert x. induction l as [|y l IH]; intros x; simpl; [lia|].
  specialize (IH (Z.min x y)). lia.
Qed.

Lemma list_max_ge (x : Z) (l : list Z) : x <= list_max x l.
Proof.
  unfold list_max. revert x. induction l as [|y l IH]; intros x; simpl; [lia|].
  specialize (IH (Z.max x y)). lia.
Qed.

Lemma list_min_elem (x : Z) (l : list Z) : list_min x l ∈ x :: l.
Proof.
  unfold list_min. revert x. induction l as [|y l IH]; intros x; simpl; [left|].
  specialize (IH (Z.min x y)). apply elem_of_cons in IH as [->|IH].
  - destruct (Z.min_spec x y) as [[_ ->]|[_ ->]]; [left | right; left].
  - right. by right.
Qed.

Lemma list_max_elem (x : Z) (l : list Z) : list_max x l ∈ x :: l.
Proof.
  unfold list_max. revert x. induction l as [|y l IH]; intros x; simpl; [left|].
  specialize (IH (Z.max x y)). apply elem_of_cons in IH as [->|IH].
  - destruct (Z.max_spec x y) as [[_ ->]|[_ ->]]; [right; left | left].
  - right. by right.
Qed.

Lemma list_min_lb (x : Z) (l : list Z) (q : Z) : q ∈ x :: l -> list_min x l <= q.
Proof.
  revert x. induction l as [|y l IH]; intros x Hq.
  - apply list_elem_of_singleton in Hq as ->. unfold list_min. simpl. lia.
  - change (list_min x (y :: l)) with (list_min (Z.min x y) l).
    pose proof (list_min_le (Z.min x y) l).
    apply elem_of_cons in Hq as [Hq|Hq]; [lia|].
    apply elem_of_cons in Hq as [Hq|Hq]; [lia|].
    apply IH. by right.
Qed.

Lemma list_max_ub (x : Z) (l : list Z) (q : Z) : q ∈ x :: l -> q <= list_max x l.
Proof.
  revert x. induction l as [|y l IH]; intros x Hq.
  - apply list_elem_of_singleton in Hq as ->. unfold list_max. simpl. lia.
  - change (list_max x (y :: l)) with (list_max (Z.max x y) l).
    pose proof (list_max_ge (Z.max x y) l).
    apply elem_of_cons in Hq as [Hq|Hq]; [lia|].
    apply elem_of_cons in Hq as [Hq|Hq]; [lia|].
    apply IH. by right.
Qed.

(** X8. When [parse_midi_notes] returns a summary, its count is at least
    one and its range is written from two pitches of key tracks that were
    counted, the lower one first, and every counted pitch lies between
    them; it returns nothing exactly when no key track is counted. *)
Theorem parse_midi_notes_summary (clip : Element) :
  let counted := omap counted_pitch (ET.findall clip ".//Notes/KeyTracks/KeyTrack") in
  match parse_midi_notes clip with
  | Some m =>
      1 <= midi_count m
      ∧ exists lo hi,
          lo ∈ counted ∧ hi ∈ counted
          ∧ (forall p, p ∈ counted -> lo <= p <= hi)
          ∧ midi_range m = midi_note_name lo +:+ "-" +:+ midi_note_name hi
  | None => counted = []
  end.
Proof.
  intros counted. unfold parse_midi_notes.
  set (body := fun '(pitches, note_count) kt => _).
  assert (Hstep : forall acc_p acc_n kt,
             (counted_pitch kt = None ∧ body (acc_p, acc_n) kt = (acc_p, acc_n))
             ∨ (exists pitch k, counted_pitch kt = Some pitch ∧ 1 <= k
                                ∧ body (acc_p, acc_n) kt = (acc_p ++ [pitch], acc_n + k))).
  { intros acc_p acc_n kt. unfold body, counted_pitch.
    destruct (ET.find kt "MidiKey") as [midi_key|]; [|by left].
    destruct (match ET.get_opt midi_key "Value" with
              | Some v => Str.to_int v | None => Ok 0 end) as [pitch|]; [|by left].
    destruct (ET.findall kt "Notes/MidiNoteEvent") as [|n ns]; [by left|].
    right. exists pitch, (Z.of_nat (length (n :: ns))). split; [done|].
    split; [simpl; lia | done]. }
  clearbody body.
  assert (Hinv : forall kts acc_p acc_n,
             (acc_p ≠ [] -> 1 <= acc_n) -> 0 <= acc_n ->
             (fold_left body kts (acc_p, acc_n)).1 = acc_p ++ omap counted_pitch kts
             ∧ ((fold_left body kts (acc_p, acc_n)).1 ≠ [] ->
                1 <= (fold_left body kts (acc_p, acc_n)).2)
             ∧ 0 <= (fold_left body kts (acc_p, acc_n)).2).
  { induction kts as [|kt kts IH]; intros acc_p acc_n H1 H0; cbn [fold_left].
    - cbn [omap list_omap fst snd]. by rewrite app_nil_r.
    - cbn [omap list_omap].
      destruct (Hstep acc_p acc_n kt) as [[-> ->]|(pitch & k & -> & Hk & ->)];
        [by apply IH|].
      destruct (IH (acc_p ++ [pitch]) (acc_n + k)) as (Ha & Hb & Hc); [lia | lia |].
      split; [by rewrite Ha, <- app_assoc | by split]. }
  destruct (Hinv (ET.findall clip ".//Notes/KeyTracks/KeyTrack") [] 0) as (Ha & Hb & Hc);
    [done | lia |].
  fold counted in Ha.
  destruct (fold_left body _ _) as [pitches note_count]. cbn [fst snd] in *.
  rewrite app_nil_l in Ha. subst pitches.
  destruct counted as [|p ps]; [done|].
  destruct (Z.eqb_spec note_count 0) as [H0|H0]; [specialize (Hb ltac:(done)); lia|].
  cbn [midi_count midi_range]. split; [by apply Hb|].
  exists (list_min p ps), (list_max p ps).
  split; [apply list_min_elem|]. split; [apply list_max_elem|]. split; [|done].
  intros q Hq. split; [by apply list_min_lb | by apply list_max_ub].
Qed.

(** *** Launch settings *)

Lemma of_Z_head (n : Z) :
  match Str.of_Z n with
  | String c _ => c = "-"%char ∨ Str.is_digit c = true
  | EmptyString => True
  end.
Proof.
  unfold Str.of_Z. destruct (Z.to_int n) as [d|d]; simpl.
  - destruct d; simpl; auto.
  - by left.
Qed.

Lemma of_Z_not_word (n : Z) (c : ascii) (s : string) :
  c ≠ "-"%char -> Str.is_digit c = false -> Str.of_Z n ≠ String c s.
Proof.
  intros H1 H2 E. pose proof (of_Z_head n) as H. rewrite E in H.
  destruct H as [H|H]; congruence.
Qed.

Lemma filter_has_tag_absent (e : Element) (t : string) :
  has_child e t = false -> List.filter (ET.has_tag t) (ET.children e) = [].
Proof.
  unfold has_child. induction (ET.children e) as [|c cs IH]; simpl; [done|].
  destruct (ET.has_tag t c); simpl; [discriminate|]. exact IH.
Qed.

(** X9. [parse_launch_settings] never reports a default: the launch mode
    is never [trigger], the launch quantisation is never [none], and a
    follow action is never [none]; when the clip element has none of the
    four children that hold the settings, the result is the empty dict. *)
Theorem launch_defaults_hidden (clip : Element) :
  launch_mode (parse_launch_settings clip) ≠ Some "trigger"
  ∧ launch_quant (parse_launch_settings clip) ≠ Some "none"
  ∧ (forall s, launch_follow (parse_launch_settings clip) = Some s ->
               Str.startswith s "none @ " = false)
  ∧ (has_child clip "LaunchMode" = false ->
     has_child clip "LaunchQuantisation" = false ->
     has_child clip "FollowAction" = false ->
     has_child clip "Ram" = false ->
     launch_truthy (parse_launch_settings clip) = false).
Proof.
  unfold parse_launch_settings. cbn [launch_mode launch_quant launch_follow].
  split; [|split; [|split]].
  - destruct (Str.to_int (get_attr (Some clip) "LaunchMode" "0")) as [mode|];
      cbn [mbind result_bind try_except]; [|done].
    destruct (Z.eqb_spec mode 0) as [H0|H0]; cbn [negb try_except]; [done|].
    intros [= E]. revert E.
    destruct (LAUNCH_MODES !! mode) as [name|] eqn:El; cbn [default from_option id].
    + intros ->. apply elem_of_list_to_map_2 in El.
      repeat (apply elem_of_cons in El as [El|El]; [congruence|]). inversion El.
    + by apply of_Z_not_word.
  - destruct (Str.to_int (get_attr (Some clip) "LaunchQuantisation" "0")) as [quant|];
      cbn [mbind result_bind try_except]; [|done].
    destruct (Z.ltb_spec 0 quant) as [H0|H0]; cbn [try_except]; [|done].
    intros [= E]. revert E.
    destruct (LAUNCH_QUANT !! quant) as [name|] eqn:El; cbn [default from_option id].
    + intros ->. apply elem_of_list_to_map_2 in El.
      apply elem_of_cons in El as [El|El]; [injection El as ->; lia|].
      repeat (apply elem_of_cons in El as [El|El]; [congruence|]). inversion El.
    + by apply of_Z_not_word.
  - intros s.
    destruct (String.eqb _ "true"); [|done].
    destruct (Str.to_int (get_attr (Some clip) "FollowAction/FollowActionA" "0")) as [a|];
      cbn [mbind result_bind try_except]; [|done].
    destruct (String.eqb_spec (default "unknown" (FOLLOW_ACTIONS !! a)) "none") as [E|E];
      cbn [negb try_except]; [done|].
    destruct (F64.of_string _) as [t|]; cbn [mbind result_bind try_except]; [|done].
    intros [= <-].
    destruct (FOLLOW_ACTIONS !! a) as [name|] eqn:El; cbn [default from_option id] in *;
      [|done].
    apply elem_of_list_to_map_2 in El.
    repeat (apply elem_of_cons in El as [El|El]; [injection El as Ha Hn; subst name; done|]).
    inversion El.
  - intros H1 H2 H3 H4. unfold launch_truthy.
    cbn [launch_mode launch_quant launch_follow launch_ram].
    unfold get_attr, ET.find, ET.findall.
    cbn [Str.startswith Str.split Str.split_onto ET.compile mbind option_bind String.eqb
         Ascii.eqb Bool.eqb fold_left ET.select flat_map app Str.rev Str.rev_onto].
    rewrite !filter_has_tag_absent by done. done.
Qed.

(** *** Group names *)

Lemma build_group_map_lookup (root : Element) (gid name : string) :
  build_group_map root !! gid = Some name ->
  gid ≠ ""
  ∧ exists g, g ∈ group_track_elements root
              ∧ ET.get_opt g "Id" = Some gid
              ∧ name = get_attr (Some g) "Name/EffectiveName" "Group".
Proof.
  unfold build_group_map. fold (group_track_elements root).
  apply (fold_left_invariant
           (fun groups : gmap string string =>
              groups !! gid = Some name ->
              gid ≠ ""
              ∧ exists g, g ∈ group_track_elements root
                          ∧ ET.get_opt g "Id" = Some gid
                          ∧ name = get_attr (Some g) "Name/EffectiveName" "Group")).
  - intros H. by rewrite lookup_empty in H.
  - intros groups g Hin IH. cbv zeta.
    destruct (ET.get_opt g "Id") as [track_id|] eqn:Eid; [|exact IH].
    destruct (Str.truthy track_id) eqn:Et; [|exact IH].
    intros H. destruct (decide (track_id = gid)) as [->|Hne].
    + rewrite lookup_insert_eq in H. injection H as <-.
      split; [by apply truthy_nonempty|]. by exists g.
    + rewrite lookup_insert_ne in H by done. by apply IH.
Qed.

Lemma build_group_map_is_Some (root : Element) (gid : string) (g : Element) :
  g ∈ group_track_elements root -> ET.get_opt g "Id" = Some gid -> gid ≠ "" ->
  is_Some (build_group_map root !! gid).
Proof.
  unfold build_group_map. fold (group_track_elements root).
  intros Hin Hid Hne.
  assert (H : forall l (acc : gmap string string),
             (is_Some (acc !! gid) ∨ g ∈ l) ->
             is_Some
               (fold_left
                  (fun groups track =>
                     let name := get_attr (Some track) "Name/EffectiveName" "Group" in
                     match ET.get_opt track "Id" with
                     | Some track_id =>
                         if Str.truthy track_id then <[track_id := name]> groups else groups
                     | None => groups
                     end) l acc !! gid)).
  { induction l as [|x l IH]; intros acc [Hs|Hl]; cbn [fold_left].
    - done.
    - inversion Hl.
    - apply IH. left. cbv zeta. destruct (ET.get_opt x "Id") as [i|]; [|done].
      destruct (Str.truthy i); [|done].
      destruct (decide (i = gid)) as [->|]; [by rewrite lookup_insert_eq|].
      by rewrite lookup_insert_ne.
    - apply IH. apply elem_of_cons in Hl as [<-|Hl]; [left | by right].
      cbv zeta. rewrite Hid. apply truthy_nonempty in Hne. rewrite Hne.
      by rewrite lookup_insert_eq. }
  apply H. by right.
Qed.

Section GroupNames.

Context `{os_path : OsPath}.
Variable log10 : spec_float -> spec_float.

(** X10. A track that [parse_als] lists gets a group name exactly when
    its [TrackGroupId] is not [-1], is not empty and is the [Id] of a
    group track of the document; the name is then the effective name of
    a group track with that [Id]. *)
Theorem group_name_resolved (root track : Element) (info : Track) :
  parse_track log10 track false = Ok info ->
  let gid := get_attr (Some track) "TrackGroupId" "-1" in
  let resolved := resolve_group (build_group_map root) info in
  (is_Some (state_group_name (track_state resolved)) <->
   gid ≠ "-1" ∧ gid ≠ ""
   ∧ exists g, g ∈ group_track_elements root ∧ ET.get_opt g "Id" = Some gid)
  ∧ (forall name,
       state_group_name (track_state resolved) = Some name ->
       exists g, g ∈ group_track_elements root ∧ ET.get_opt g "Id" = Some gid
                 ∧ name = get_attr (Some g) "Name/EffectiveName" "Group").
Proof.
  intros H gid resolved.
  assert (Hs : track_state info = parse_track_state track).
  { revert H. unfold parse_track.
    destruct (mapR (parse_clip log10) _); cbn [mbind result_bind]; [|discriminate].
    destruct (mapR (parse_session_clip log10) _); cbn [mbind result_bind]; [|discriminate].
    intros H.
    apply (f_equal (fun r => match r with
                             | Ok t => track_state t
                             | Raise _ => no_state
                             end)) in H.
    cbn beta iota in H. cbn [track_state] in H. by rewrite H. }
  assert (Hid : state_group_id (track_state info)
                = if String.eqb gid "-1" then None else Some gid).
  { rewrite Hs. reflexivity. }
  assert (Hn : state_group_name (track_state info) = None).
  { rewrite Hs. reflexivity. }
  subst resolved. unfold resolve_group. rewrite Hid.
  destruct (String.eqb_spec gid "-1") as [E1|E1].
  - rewrite Hn. split.
    + split; [by intros [x Hx] | by intros [? _]].
    + intros name Hx. discriminate.
  - destruct (Str.truthy gid) eqn:Et.
    + destruct (build_group_map root !! gid) as [group_name|] eqn:El.
      * cbn [track_state state_group_name].
        apply build_group_map_lookup in El as (Hne & g & Hin & Hg & Hname).
        split.
        -- split; [|by eauto]. intros _. split; [done|]. split; [done|]. by exists g.
        -- intros name [= <-]. by exists g.
      * rewrite Hn. split.
        -- split; [by intros [x Hx]|]. intros (_ & Hne & g & Hin & Hg).
           destruct (build_group_map_is_Some root gid g Hin Hg Hne) as [x Hx]. congruence.
        -- intros name Hx. discriminate.
    + rewrite Hn. split.
      * split; [by intros [x Hx]|]. intros (_ & Hne & _).
        apply truthy_nonempty in Hne. congruence.
      * intros name Hx. discriminate.
Qed.

End GroupNames.

(** *** The summary generator *)

Section SummaryGenerator.

Context `{os_path : OsPath}.
Variable log10 : spec_float -> spec_float.
Variable read_file : string -> lib (list Byte.byte).
Variable gzip_decompress : list Byte.byte -> lib (list Byte.byte).
Variable decode_utf8 : list Byte.byte -> lib string.
Variable fromstring : string -> lib Element.
Variable path_exists : string -> bool.
Variable open_write : string -> lib unit.
Variable write_text : string -> string -> lib unit.
Variable exn_str : exn -> string.

#[local] Abbreviation run_summary :=
  (generate_summary log10 read_file gzip_decompress decode_utf8 fromstring
     path_exists open_write write_text exn_str).
#[local] Abbreviation parse :=
  (parse_als log10 read_file gzip_decompress decode_utf8 fromstring).

(** X11. A set that exists but cannot be read, decompressed or decoded is
    not reported as a failure: [generate_summary] writes a summary whose
    whole text is [ERROR: ] and the reason, prints [Generated: ] and the
    path, and returns [True]. *)
Theorem unreadable_set_summary_generated (als_path reason : string) :
  path_exists als_path = true ->
  load_text read_file gzip_decompress decode_utf8 als_path = Failed reason ->
  open_write (als_path +:+ ".txt") = Done tt ->
  write_text (als_path +:+ ".txt") ("ERROR: " +:+ reason) = Done tt ->
  run_summary als_path None
  = ([WriteFile (als_path +:+ ".txt") ("ERROR: " +:+ reason);
      Stdout ("Generated: " +:+ als_path +:+ ".txt")], true).
Proof.
  intros He Hl Ho Hw. unfold generate_summary, parse_als.
  rewrite He, Hl. cbn [negb default from_option id format_output].
  by rewrite Ho, Hw.
Qed.

(** X12. [generate_summary] touches no file but the output path, which is
    the set's path followed by [.txt] unless one is given; it returns
    [True] exactly when it has written the whole summary there; and when
    the set is missing or [parse_als] raises, it touches no file at all
    and only writes a message to standard error. *)
Theorem generate_summary_effects (als_path : string) (output_path : option string) :
  let out := default (als_path +:+ ".txt") output_path in
  let r := run_summary als_path output_path in
  forallb (fun ev => negb (touches_other out ev)) r.1 = true
  ∧ (r.2 = true <->
     exists parsed, parse als_path = Ok parsed
                    ∧ r.1 = [WriteFile out (format_output parsed);
                             Stdout ("Generated: " +:+ out)])
  ∧ (r.2 = false -> exists msg, last r.1 = Some (Stderr msg))
  ∧ (path_exists als_path = false ∨ (exists e, parse als_path = Raise e) ->
     r.2 = false ∧ forallb is_stderr r.1 = true).
Proof.
  intros out r. subst r. unfold generate_summary. fold out.
  destruct (path_exists als_path) eqn:He; cbn [negb].
  - destruct (parse als_path) as [parsed|e] eqn:Ep.
    + destruct (open_write out) as [[]|reason] eqn:Eo.
      * destruct (write_text out (format_output parsed)) as [[]|reason] eqn:Ew;
          cbn [fst snd forallb touches_other negb andb].
        -- rewrite String.eqb_refl. split; [done|]. split; [|split].
           ++ split; [|done]. intros _. by exists parsed.
           ++ discriminate.
           ++ intros [?|[e ?]]; discriminate.
        -- rewrite String.eqb_refl. split; [done|]. split; [|split].
           ++ split; [discriminate|]. intros (p & _ & ?). discriminate.
           ++ intros _. eexists. reflexivity.
           ++ intros [?|[e ?]]; discriminate.
      * cbn [fst snd forallb touches_other negb andb]. split; [done|]. split; [|split].
        -- split; [discriminate|]. intros (p & _ & ?). discriminate.
        -- intros _. eexists. reflexivity.
        -- intros [?|[e ?]]; discriminate.
    + cbn [fst snd forallb touches_other negb andb is_stderr]. split; [done|].
      split; [|split].
      * split; [discriminate|]. intros (p & ? & _). discriminate.
      * intros _. eexists. reflexivity.
      * done.
  - cbn [fst snd forallb touches_other negb andb is_stderr]. split; [done|].
    split; [|split].
    + split; [discriminate|]. intros (p & _ & ?). discriminate.
    + intros _. eexists. reflexivity.
    + done.
Qed.

End SummaryGenerator.

(** *** Sends in the track header *)

Lemma format_sends_elem (i : nat) (sends : list string) (entry : string) :
  entry ∈ format_sends i sends <->
  exists j send, sends !! j = Some send ∧ send ≠ "-inf"
                 ∧ entry = send_label (i + j) send.
Proof.
  revert i. induction sends as [|s sends IH]; intros i; cbn [format_sends].
  - split; [intros H; inversion H | intros (j & send & H & _); by destruct j].
  - rewrite elem_of_app, IH. split.
    + intros [H|(j & send & Hj & Hne & ->)].
      * destruct (String.eqb_spec s "-inf") as [E|E]; cbn [negb] in H; [inversion H|].
        apply list_elem_of_singleton in H as ->.
        exists 0%nat, s. rewrite Nat.add_0_r. done.
      * exists (S j), send. split; [done|]. split; [done|]. by replace (i + S j)%nat with (S i + j)%nat by lia.
    + intros (j & send & Hj & Hne & ->). destruct j as [|j].
      * left. injection Hj as ->. rewrite Nat.add_0_r.
        destruct (String.eqb_spec send "-inf") as [E|E]; [done|]. cbn [negb]. left.
      * right. exists j, send. split; [done|]. split; [done|].
        by replace (S i + j)%nat with (i + S j)%nat by lia.
Qed.

Lemma format_sends_length (i : nat) (sends : list string) :
  length (format_sends i sends)
  = length (List.filter (fun send => negb (String.eqb send "-inf")) sends).
Proof.
  revert i. induction sends as [|s sends IH]; intros i; cbn [format_sends List.filter];
    [done|].
  rewrite length_app, IH. by destruct (negb (String.eqb s "-inf")).
Qed.

(** X13. For a mixer with at most 26 sends, the track header shows one
    entry for every send that is not [-inf], and a send keeps the letter
    of its own position: hiding an earlier send does not shift the letters
    of the later ones. The entries follow the volume and the pan. *)
Theorem sends_labelled_by_position (mixer : Mixer) :
  (length (mixer_sends mixer) <= 26)%nat ->
  let parts := format_sends 0 (mixer_sends mixer) in
  length parts
  = length (List.filter (fun send => negb (String.eqb send "-inf")) (mixer_sends mixer))
  ∧ (forall entry,
       entry ∈ parts <->
       exists j send, (j < 26)%nat ∧ mixer_sends mixer !! j = Some send ∧ send ≠ "-inf"
                      ∧ entry = send_label j send)
  ∧ exists flags,
      format_mixer_info (Some mixer)
      = " [" +:+ Str.join ", "
                   (flags ++ ["Vol: " +:+ mixer_volume mixer; "Pan: " +:+ mixer_pan mixer]
                    ++ parts) +:+ "]".
Proof.
  intros Hlen parts. subst parts. split; [apply format_sends_length|]. split.
  - intros entry. rewrite (format_sends_elem 0). split.
    + intros (j & send & Hj & Hne & ->). exists j, send.
      split; [|done]. apply lookup_lt_Some in Hj. lia.
    + intros (j & send & _ & Hj & Hne & ->). by exists j, send.
  - exists ((if mixer_solo mixer then ["SOLO"] else [])
            ++ (if mixer_muted mixer then ["MUTED"] else [])).
    unfold format_mixer_info. rewrite <- !app_assoc.
    by destruct (mixer_solo mixer), (mixer_muted mixer).
Qed.

Lemma append_dB_not_inf (s : string) : s +:+ "dB" ≠ "-inf".
Proof.
  destruct s as [|c1 [|c2 [|c3 [|c4 [|c5 s]]]]]; simpl; intros H; discriminate H.
Qed.

Section SilentSends.

Variable log10 : spec_float -> spec_float.

(** X14. [format_db] gives [-inf], the one value that hides a send, exactly
    when the text is a float that is zero or negative. The value that
    [parse_track_mixer] takes for a send holder without a [Send/Manual]
    element, 0.0003162277571, is positive: such a send is shown, whatever
    [log10] returns. *)
Theorem format_db_silent_iff (linear_value : string) :
  (format_db log10 linear_value = "-inf" <->
   exists val, F64.of_string linear_value = Ok val ∧ F64.leb val (F64.of_Z 0) = true)
  ∧ format_db log10 "0.0003162277571" ≠ "-inf".
Proof.
  assert (H : forall s,
             format_db log10 s = "-inf" <->
             exists val, F64.of_string s = Ok val ∧ F64.leb val (F64.of_Z 0) = true).
  { intros s. unfold format_db, format_db_of.
    destruct (F64.of_string s) as [val|e]; cbn [mbind result_bind try_except].
    - destruct (F64.leb val (F64.of_Z 0)) eqn:El; cbn [try_except].
      + split; [by exists val | done].
      + split; [|intros (v & [= <-] & Hv); congruence].
        intros Hs. exfalso. revert Hs.
        destruct (F64.ltb _ _); cbn [try_except]; [discriminate|].
        destruct (F64.to_int _) as [n|]; cbn [mbind result_bind try_except];
          [|discriminate].
        destruct (negb _); cbn [try_except]; apply append_dB_not_inf.
    - split; [discriminate | intros (v & Hv & _); discriminate]. }
  split; [apply H|]. rewrite H. intros (val & Hv & Hle).
  vm_compute in Hv. injection Hv as <-. vm_compute in Hle. discriminate.
Qed.

End SilentSends.

(** *** Note names *)

(** X15. For every integer pitch, also a negative one, the note name is
    one of the twelve names of [NOTE_NAMES] followed by the octave
    [pitch // 12 - 2], so the [except] branch of [midi_note_name] is never
    taken for a pitch read from a clip; twelve semitones up, the name is
    the same and the octave is one higher. *)
Theorem midi_note_name_octaves (pitch : Z) :
  exists note,
    note ∈ NOTE_NAMES
    ∧ midi_note_name pitch = note +:+ Str.of_Z (pitch / 12 - 2)
    ∧ midi_note_name (pitch + 12) = note +:+ Str.of_Z (pitch / 12 - 1).
Proof.
  exists (nth (Z.to_nat (pitch mod 12)) NOTE_NAMES "").
  pose proof (Z.mod_pos_bound pitch 12 ltac:(lia)) as Hb.
  split; [|split].
  - assert (Hn : (Z.to_nat (pitch mod 12) < 12)%nat) by lia.
    remember (Z.to_nat (pitch mod 12)) as n eqn:En. clear En Hb.
    do 12 (destruct n as [|n]; [cbn; set_solver|]). lia.
  - reflexivity.
  - unfold midi_note_name.
    replace ((pitch + 12) mod 12) with (pitch mod 12)
      by (rewrite <- (Z.mul_1_l 12) at 2; by rewrite Z_mod_plus_full).
    replace ((pitch + 12) / 12 - 2) with (pitch / 12 - 1)
      by (rewrite <- (Z.mul_1_l 12) at 2; rewrite Z_div_plus_full by lia; lia).
    reflexivity.
Qed.

(** *** File names *)

Lemma contains_slash_cons (c : ascii) (s : string) :
  Str.contains "/" (String c s) = Ascii.eqb "/" c || Str.contains "/" s.
Proof. cbn [Str.contains Str.startswith]. by destruct (Ascii.eqb "/" c), s. Qed.

Lemma contains_slash_rev_onto (s acc : string) :
  Str.contains "/" (Str.rev_onto s acc) = Str.contains "/" s || Str.contains "/" acc.
Proof.
  revert acc. induction s as [|c s IH]; intros acc; [done|].
  cbn [Str.rev_onto]. rewrite IH, !contains_slash_cons.
  destruct (Ascii.eqb "/" c), (Str.contains "/" s), (Str.contains "/" acc); done.
Qed.

Lemma append_assoc (a b c : string) : (a +:+ b) +:+ c = a +:+ (b +:+ c).
Proof.
  induction a as [|x a IH]; [done|].
  change (String x ((a +:+ b) +:+ c) = String x (a +:+ (b +:+ c))). by f_equal.
Qed.

Lemma append_nil_r (a : string) : a +:+ "" = a.
Proof.
  induction a as [|x a IH]; [done|]. change (String x (a +:+ "") = String x a). by f_equal.
Qed.

Lemma rev_onto_append (s acc : string) : Str.rev_onto s acc = Str.rev s +:+ acc.
Proof.
  unfold Str.rev. revert acc. induction s as [|c s IH]; intros acc; [done|].
  cbn [Str.rev_onto]. rewrite (IH (String c acc)), (IH (String c "")), append_assoc. done.
Qed.

Lemma split_onto_last (s cur : string) :
  Str.contains "/" cur = false ->
  Str.contains "/" (List.last (Str.split_onto "/" s cur) "") = false
  ∧ exists dir,
      Str.rev cur +:+ s = dir +:+ List.last (Str.split_onto "/" s cur) ""
      ∧ (dir = "" ∨ exists d, dir = d +:+ "/").
Proof.
  revert cur. induction s as [|c s IH]; intros cur Hcur.
  - cbn [Str.split_onto List.last]. split.
    + unfold Str.rev. by rewrite contains_slash_rev_onto, Hcur.
    + exists "". split; [|by left]. by rewrite append_nil_r.
  - cbn [Str.split_onto]. destruct (Ascii.eqb_spec c "/") as [->|Hc].
    + destruct (IH "" eq_refl) as (Hb & dir & Hd & Hdir).
      assert (Hl : List.last (Str.rev cur :: Str.split_onto "/" s "") ""
                   = List.last (Str.split_onto "/" s "") "").
      { cbn [List.last]. destruct (Str.split_onto "/" s "") eqn:E; [|done].
        destruct s as [|c' s']; cbn in E; [discriminate|].
        destruct (Ascii.eqb c' "/"); [discriminate|].
        clear -E. exfalso. revert E. generalize (String c' ""). 
        induction s' as [|x s' IH']; intros acc; cbn; [discriminate|].
        destruct (Ascii.eqb x "/"); [discriminate | apply IH']. }
      rewrite Hl. split; [done|].
      exists (Str.rev cur +:+ "/" +:+ dir). split.
      * change ("" +:+ s) with s in Hd. rewrite !append_assoc, <- Hd. done.
      * right. destruct Hdir as [->|[d ->]].
        -- exists (Str.rev cur). by rewrite append_nil_r.
        -- exists (Str.rev cur +:+ "/" +:+ d). by rewrite !append_assoc.
    + destruct (IH (String c cur)) as (Hb & dir & Hd & Hdir).
      { rewrite contains_slash_cons, Hcur.
        destruct (Ascii.eqb_spec "/" c) as [<-|]; done. }
      split; [done|]. exists dir. split; [|done]. rewrite <- Hd.
      unfold Str.rev at 2. cbn [Str.rev_onto].
      rewrite (rev_onto_append cur (String c "")), append_assoc. done.
Qed.

Lemma posix_basename_after_last_slash (path : string) :
  Str.contains "/" (posix_basename path) = false
  ∧ exists dir, path = dir +:+ posix_basename path
                ∧ (dir = "" ∨ exists d, dir = d +:+ "/").
Proof.
  destruct (split_onto_last path "" eq_refl) as (Hb & dir & Hd & Hdir).
  split; [exact Hb | by exists dir].
Qed.

(** X16. On every platform, the audio file that [get_audio_ref] returns
    is [os.path.basename] of the relative path of the sample when that
    path is not empty, and otherwise the [Name] of the file reference. On
    a POSIX system, where [os.path] is [posixpath], the name taken from a
    relative path is what follows its last slash: it holds no slash, and
    the path is that name after a directory part that is empty or ends
    with a slash. *)
Theorem audio_ref_without_folders `{os_path : OsPath} (clip : Element) (name : string) :
  get_audio_ref clip = Some name ->
  (exists ref,
     ET.find clip ".//SampleRef/FileRef/RelativePath" = Some ref
     ∧ ET.get ref "Value" "" ≠ ""
     ∧ name = basename (ET.get ref "Value" "")
     ∧ (os_path = posixpath ->
        Str.contains "/" name = false
        ∧ exists dir, ET.get ref "Value" "" = dir +:+ name
                      ∧ (dir = "" ∨ exists d, dir = d +:+ "/")))
  ∨ ((forall ref, ET.find clip ".//SampleRef/FileRef/RelativePath" = Some ref ->
                  ET.get ref "Value" "" = "")
     ∧ exists ref, ET.find clip ".//SampleRef/FileRef/Name" = Some ref
                   ∧ name = ET.get ref "Value" "").
Proof.
  unfold get_audio_ref.
  destruct (ET.find clip ".//SampleRef/FileRef/RelativePath") as [ref|].
  - destruct (Str.truthy (ET.get ref "Value" "")) eqn:Et.
    + intros [= <-]. left. exists ref. split; [done|].
      split; [by apply truthy_nonempty|]. split; [done|]. intros ->.
      apply posix_basename_after_last_slash.
    + intros H. right. split.
      * intros r [= <-]. destruct (ET.get ref "Value" ""); [done | discriminate].
      * destruct (ET.find clip ".//SampleRef/FileRef/Name") as [r|]; [|discriminate].
        injection H as <-. by exists r.
  - intros H. right. split; [discriminate|].
    destruct (ET.find clip ".//SampleRef/FileRef/Name") as [r|]; [|discriminate].
    injection H as <-. by exists r.
Qed.

(** *** The further properties on the sample inputs *)

Lemma parse_params_origin_witness :
  exists child raw,
    child ∈ ET.children rack_device
    ∧ manual_value child = Some raw
    ∧ "64" = format_param raw "Filter"
    ∧ ((ET.tag child = "Filter" ∧ is_plain_param_tag "Filter")
       ∨ (Str.startswith (ET.tag child) "MacroControls." = true
          ∧ exists idx, macro_index (ET.tag child) = Ok idx
                        ∧ get_macro_display_names rack_device !! idx = Some "Filter")).
Proof.
  apply (parse_params_origin rack_device (get_macro_display_names rack_device) "Filter" "64").
  apply list_elem_of_In. vm_compute. tauto.
Defined.

Lemma macro_display_names_custom_witness :
  "Filter" ≠ "" ∧ is_default_macro_name "Filter" = false
  ∧ exists child,
      child ∈ ET.children rack_device
      ∧ Str.startswith (ET.tag child) "MacroDisplayNames." = true
      ∧ macro_index (ET.tag child) = Ok 3
      ∧ ET.get child "Value" "" = "Filter".
Proof.
  apply (macro_display_names_custom rack_device 3 "Filter"). vm_compute. reflexivity.
Defined.


Lemma arrangement_clips_sorted_witness :
  match parse_track log10_samples unsorted_track false with
  | Ok info =>
      exists parsed,
        mapR (parse_clip log10_samples) (arrangement_clip_elements unsorted_track) = Ok parsed
        ∧ track_arrangement_clips info ≡ₚ parsed
        ∧ (Forall (fun c => clip_time_float c ≠ S754_nan) parsed ->
           Sorted not_later (track_arrangement_clips info))
  | Raise _ => False
  end.
Proof.
  destruct (parse_track log10_samples unsorted_track false) as [info|e] eqn:E;
    [|vm_compute in E; discriminate].
  exact (arrangement_clips_sorted log10_samples unsorted_track false info E).
Defined.

Lemma group_name_resolved_witness :
  match parse_track log10_samples unsorted_track false with
  | Ok info =>
      state_group_name
        (track_state (resolve_group (build_group_map grouped_project) info))
      = Some "Drums"
  | Raise _ => False
  end.
Proof.
  destruct (parse_track log10_samples unsorted_track false) as [info|e] eqn:E;
    [|vm_compute in E; discriminate].
  destruct (group_name_resolved log10_samples grouped_project unsorted_track info E)
    as [[_ Hs] Hn].
  destruct Hs as [name Hname].
  { split; [vm_compute; discriminate|]. split; [vm_compute; discriminate|].
    exists (mkElement "GroupTrack" [("Id", "7")]
              [mkElement "Name" [] [mkElement "EffectiveName" [("Value", "Drums")] []]]).
    split; [apply list_elem_of_In; vm_compute; tauto | reflexivity]. }
  rewrite Hname. destruct (Hn name Hname) as (g & Hg & Hid & ->).
  apply list_elem_of_In in Hg. vm_compute in Hg. destruct Hg as [<-|[]]. reflexivity.
Defined.

Lemma unreadable_set_summary_generated_witness :
  generate_summary log10_samples (fun _ => Failed "Not a gzipped file")
    (fun data => Done data) (fun _ => Done "") (fun _ => Failed "no element found")
    (fun _ => true) (fun _ => Done tt) (fun _ _ => Done tt) (fun _ => "")
    "set.als" None
  = ([WriteFile "set.als.txt" "ERROR: Not a gzipped file";
      Stdout "Generated: set.als.txt"], true).
Proof.
  apply (unreadable_set_summary_generated log10_samples
           (fun _ => Failed "Not a gzipped file") (fun data => Done data)
           (fun _ => Done "") (fun _ => Failed "no element found")
           (fun _ => true) (fun _ => Done tt) (fun _ _ => Done tt) (fun _ => "")
           "set.als" "Not a gzipped file"); reflexivity.
Defined.

Lemma sends_labelled_by_position_witness :
  format_sends 0 (mixer_sends two_send_mixer) = ["Send B: -6.0dB"]
  ∧ exists flags,
      format_mixer_info (Some two_send_mixer)
      = " [" +:+ Str.join ", " (flags ++ ["Vol: 0dB"; "Pan: C"; "Send B: -6.0dB"]) +:+ "]".
Proof.
  destruct (sends_labelled_by_position two_send_mixer) as (_ & _ & flags & Hf);
    [vm_compute; lia|].
  split; [reflexivity|]. exists flags. exact Hf.
Defined.

Lemma audio_ref_without_folders_witness :
  Str.contains "/" "kick.wav" = false
  ∧ exists dir, "Samples/Imported/kick.wav" = dir +:+ "kick.wav"
                ∧ (dir = "" ∨ exists d, dir = d +:+ "/").
Proof.
  destruct (audio_ref_without_folders (os_path := posixpath) sample_clip "kick.wav")
    as [(ref & Hf & _ & _ & Hposix)|[Hempty _]].
  - vm_compute. reflexivity.
  - vm_compute in Hf. injection Hf as <-. exact (Hposix eq_refl).
  - exfalso. specialize (Hempty _ eq_refl). vm_compute in Hempty. discriminate.
Defined.
